(** * Nokia 5110 LCD driver (CollisionSensor/Src/lcd.c): model and properties

    The driver talks to the display over SPI2.  Every byte that leaves the
    controller is either a command byte (D/C line low) or a data byte (D/C
    line high); a data byte sets one column of 8 pixels and the display
    advances its column cursor by itself.  What the driver does is therefore
    fully described by the sequence of framed bytes it puts on the bus, and
    that sequence is what the functions below compute.

    Conventions of the embedding:
    - C integers are [Z]; every implicit conversion to [uint8_t] or [char]
      that can change a value is written out as a reduction modulo 2^8.  The
      target is an STM32 (ARM EABI), where plain [char] is unsigned.
    - [int] arithmetic never leaves the 32-bit range in the display code
      (all operands are at most 16 bits wide), so it is plain [Z] arithmetic;
      [/] on a possibly negative [int] is [Z.quot] (C truncates toward
      zero).  The shifts of the pin configuration can overflow; see there.
    - A [char *] argument is the list of the characters stored behind the
      pointer; reading or writing outside of it is undefined behaviour, and
      so is reading outside the glyph table.  Undefined behaviour is [None].
    - The glyph table [ascii_to_lcd] is declared in lcd.h, which is not part
      of the sources at hand: it is a parameter of the model.
    - lcd.c holds two revisions of the driver; the model follows the one
      with the temperature readout, which prints the distance on row 2. *)

From Stdlib Require Import Ascii String.
From Stdlib Require Import ZArith List Lia Bool.
From Equations Require Import Equations.
Import ListNotations.
Open Scope Z_scope.

(** ** Machine integers *)

Definition to_uint8 (z : Z) : Z := z mod 256.
Definition to_char (z : Z) : Z := to_uint8 z.

Definition is_uint8 (z : Z) : bool := (0 <=? z) && (z <? 256).

(** ** Arrays *)

(** The character codes of a text, and the array a C string literal denotes
    (the text followed by a terminating zero). *)
Definition chars (s : string) : list Z :=
  map (fun a => Z.of_N (N_of_ascii a)) (list_ascii_of_string s).

Definition literal (s : string) : list Z := chars s ++ [0].

(** An automatic array without initialiser holds whatever the stack held:
    [indeterminate] stands for those contents. *)
Definition indeterminate : Type := nat -> Z.

Definition auto_array (n : nat) (stack : indeterminate) : list Z :=
  map stack (seq 0 n).

Definition load {A : Type} (a : list A) (i : Z) : option A :=
  if i <? 0 then None else nth_error a (Z.to_nat i).

Fixpoint update {A : Type} (a : list A) (n : nat) (v : A) : list A :=
  match a, n with
  | [], _ => []
  | _ :: t, O => v :: t
  | h :: t, S k => h :: update t k v
  end.

Definition store {A : Type} (a : list A) (i : Z) (v : A) : option (list A) :=
  if (i <? 0) || (Z.of_nat (length a) <=? i) then None
  else Some (update a (Z.to_nat i) v).

(** ** The bus: framed bytes, and computations that send them *)

Inductive frame : Type :=
| Command (b : Z)
| Data (b : Z).

Definition is_data (f : frame) : bool :=
  match f with Data _ => true | Command _ => false end.

(** A driver routine either runs into undefined behaviour or returns a value
    together with the frames it has sent, oldest first. *)
Definition M (A : Type) : Type := option (A * list frame).

Definition ret {A : Type} (a : A) : M A := Some (a, []).

Definition bind {A B : Type} (m : M A) (k : A -> M B) : M B :=
  match m with
  | None => None
  | Some (a, sent) =>
      match k a with
      | None => None
      | Some (b, sent') => Some (b, sent ++ sent')
      end
  end.

Definition lift {A : Type} (o : option A) : M A :=
  match o with
  | Some a => ret a
  | None => None
  end.

Definition send (f : frame) : M unit := Some (tt, [f]).

Notation "x <- m ;; k" := (bind m (fun x => k))
  (at level 61, m at next level, right associativity).
Notation "' pat <- m ;; k" :=
  (bind m (fun x => match x with pat => k end))
  (at level 61, pat pattern, m at next level, right associativity).
Notation "m ;; k" := (bind m (fun _ => k))
  (at level 61, right associativity).
Notation "'let?' x := o 'in' k" :=
  (match o with Some x => k | None => None end)
  (at level 61, x pattern, o at next level, right associativity).

(** [for (int i = i0; i < n; i++) body]: the bound is loop-invariant and the
    body does not assign [i], so the loop runs [n - i0] times (not at all
    when that is not positive), threading the variables the body assigns.
    The counter's final value is returned with them. *)
Fixpoint for_from {S : Type} (count : nat) (i : Z)
    (body : Z -> S -> M S) (s : S) : M (Z * S) :=
  match count with
  | O => ret (i, s)
  | Datatypes.S k => s' <- body i s ;; for_from k (i + 1) body s'
  end.

Definition for_upto {S : Type} (i0 n : Z) (body : Z -> S -> M S) (s : S)
    : M (Z * S) :=
  for_from (Z.to_nat (n - i0)) i0 body s.

(** The common case: the counter starts at 0 and is local to the loop. *)
Definition for_range {S : Type} (n : Z) (body : Z -> S -> M S) (s : S) : M S :=
  r <- for_upto 0 n body s ;; ret (snd r).

(** ** Transport and framing *)

Inductive dc_line : Type := DC_low | DC_high.

(** [LCD_SendByte]: waits for the transmit buffer, then performs one 8-bit
    write to the data register; the display latches the byte under the level
    the D/C (mode select) pin has at that time. *)
Definition LCD_SendByte (mode_select : dc_line) (c : Z) : M unit :=
  match mode_select with
  | DC_low => send (Command (to_uint8 c))
  | DC_high => send (Data (to_uint8 c))
  end.

Definition LCD_SendCommand (c : Z) : M unit := LCD_SendByte DC_low c.

Definition LCD_SendData (c : Z) : M unit := LCD_SendByte DC_high c.

(** ** Cursor addressing *)

Definition LCD_SetX (x : Z) : M unit :=
  if x >? 83 then ret tt
  else LCD_SendCommand (to_char (Z.lor 0x80 x)).

Definition LCD_SetY (y : Z) : M unit :=
  if y >? 5 then ret tt
  else LCD_SendCommand (to_char (Z.lor 0x40 y)).

Definition LCD_ResetX : M unit := LCD_SetX 0x0.

Definition LCD_ResetY : M unit := LCD_SetY 0x0.

Definition LCD_Reset : M unit := LCD_ResetX ;; LCD_ResetY.

(** ** Clearing *)

Definition LCD_ClearDisplay : M unit :=
  LCD_Reset ;;
  for_range (84 * 48 / 8) (fun _ _ => LCD_SendData 0x00) tt.

Definition LCD_ClearRow (y x : Z) : M unit :=
  LCD_SetY y ;;
  LCD_SetX x ;;
  for_range (84 - x) (fun _ _ => LCD_SendData 0x00) tt.

(** ** Glyph renderer *)

Section Renderer.

(** [ascii_to_lcd[][5]]: one row of 5 column patterns per character, the
    first row being the space character. *)
Variable ascii_to_lcd : list (list Z).

(** [ascii_to_lcd[index][i]] *)
Definition glyph_column (index i : Z) : M Z :=
  lift (let? row := load ascii_to_lcd index in load row i).

Definition LCD_PrintCharacter (c : Z) : M unit :=
  let index := to_char (c - 32) in
  first <- glyph_column index 0 ;;
  (if first =? 0x00 then ret tt else LCD_SendData 0x00) ;;
  for_range 5 (fun i _ =>
    col <- glyph_column (c - 32) i ;;
    LCD_SendData col) tt ;;
  last <- glyph_column index 4 ;;
  (if last =? 0x00 then ret tt else LCD_SendData 0x00).

Definition LCD_PrintString (str : list Z) (sz : Z) : M unit :=
  for_range sz (fun i _ =>
    ch <- lift (load str i) ;;
    LCD_PrintCharacter ch) tt.

Definition LCD_PrintStringCentered (str : list Z) (sz : Z) : M unit :=
  let numCol := to_uint8 (sz * 5) in
  numCol <- for_range sz (fun i numCol =>
    ch <- lift (load str i) ;;
    c <- lift (load ascii_to_lcd (ch - 32)) ;;
    c0 <- lift (load c 0) ;;
    let numCol := if c0 =? 0x00 then numCol else to_uint8 (numCol + 1) in
    c4 <- lift (load c 4) ;;
    let numCol := if c4 =? 0x00 then numCol else to_uint8 (numCol + 1) in
    ret numCol) numCol ;;
  LCD_SetX (to_uint8 (Z.quot (84 - numCol) 2)) ;;
  LCD_PrintString str sz.

End Renderer.

(** ** Readout formatter *)

(** [do { buf[charsWritten++] = '0' + (dist % 10); dist /= 10; }
    while (dist > 0);] returning the variables it assigned.  [dist] is a
    [uint16_t], and so is its quotient by 10: storing it back converts
    nothing. *)
Equations? uintToStr_digits (buf : list Z) (charsWritten dist : Z)
    : option (list Z * Z * Z) by wf (Z.to_nat dist) lt :=
  uintToStr_digits buf charsWritten dist
    with store buf charsWritten (to_char (48 + dist mod 10)) := {
    | None := None
    | Some buf' with Z_gt_dec (dist / 10) 0 := {
      | left _ :=
          uintToStr_digits buf' (to_uint8 (charsWritten + 1)) (dist / 10)
      | right _ := Some (buf', to_uint8 (charsWritten + 1), dist / 10) } }.
Proof.
  assert (0 < dist).
  { destruct (Z_lt_le_dec 0 dist); [assumption|].
    assert (dist / 10 <= 0) by (apply Z.div_le_upper_bound; lia). lia. }
  assert (dist / 10 < dist) by (apply Z.div_lt; lia).
  lia.
Qed.

(** The body of the reversal loop: exchange [buf[i]] and [buf[j]]. *)
Definition uintToStr_swap (buf : list Z) (i j : Z) : option (list Z) :=
  let? temp := load buf i in
  let? bj := load buf j in
  let? buf := store buf i bj in
  store buf j temp.

(** [for (...; i < j; i++, j--) { ... }] returning the variables it
    assigned. *)
Equations? uintToStr_reverse (buf : list Z) (i j : Z)
    : option (list Z * Z * Z) by wf (Z.to_nat (j - i)) lt :=
  uintToStr_reverse buf i j with Z_lt_dec i j := {
    | right _ := Some (buf, i, j)
    | left _ with uintToStr_swap buf i j := {
      | None := None
      | Some buf' := uintToStr_reverse buf' (i + 1) (j - 1) } }.
Proof. lia. Qed.

Definition uintToStr (buf : list Z) (dist : Z) : option (list Z * Z) :=
  let charsWritten := 0 in
  let? (buf, charsWritten, _) := uintToStr_digits buf charsWritten dist in
  let? (buf, _, _) := uintToStr_reverse buf 0 (charsWritten - 1) in
  Some (buf, charsWritten).

Section Readouts.

Variable ascii_to_lcd : list (list Z).

(** [for (int i = 0, j = sz; i < units_sz; i++, j++) str[j] = units[i];]
    returning [str]. *)
Definition append_units (str : list Z) (sz : Z) (units : list Z)
    (units_sz : Z) : M (list Z) :=
  r <- for_range units_sz (fun i '(str, j) =>
    u <- lift (load units i) ;;
    str <- lift (store str j u) ;;
    ret (str, j + 1)) (str, sz) ;;
  ret (fst r).

Definition LCD_PrintMeasurement (stack : indeterminate)
    (dist : Z) (units : list Z) (units_sz : Z) : M unit :=
  let distStr := auto_array 32 stack in
  LCD_ClearRow 2 0 ;;
  LCD_SetY 2 ;;
  if dist >? 4500 then
    LCD_PrintStringCentered ascii_to_lcd (literal "OUT OF RANGE") 12
  else
    '(distStr, sz) <- lift (uintToStr distStr dist) ;;
    distStr <- append_units distStr sz units units_sz ;;
    LCD_PrintStringCentered ascii_to_lcd distStr (to_uint8 (sz + units_sz)).

Definition LCD_PrintTempMeasurement (stack stack2 : indeterminate)
    (temp : Z) (units : list Z) (units_sz : Z)
    (temp2 : Z) (units2 : list Z) (units_sz2 : Z) : M unit :=
  let tempStr := auto_array 32 stack in
  let tempStr2 := auto_array 32 stack2 in
  LCD_ClearRow 4 0 ;;
  LCD_SetY 4 ;;
  if (temp >? 158) || (temp <? 0) || (temp >? 158) || (temp <? 0) then
    LCD_PrintStringCentered ascii_to_lcd (literal "OUT OF RANGE") 12
  else
    '(tempStr, sz) <- lift (uintToStr tempStr temp) ;;
    '(tempStr2, sz2) <- lift (uintToStr tempStr2 temp2) ;;
    tempStr <- append_units tempStr sz units units_sz ;;
    tempStr2 <- append_units tempStr2 sz2 units2 units_sz2 ;;
    let fullTempStr := repeat 0 64 in
    let i := 0 in
    '(i, fullTempStr) <- for_upto i (sz + units_sz) (fun i fullTempStr =>
      t <- lift (load tempStr i) ;;
      lift (store fullTempStr i t)) fullTempStr ;;
    fullTempStr <- lift (store fullTempStr i 32) ;;
    let i := i + 1 in
    r <- for_range (sz2 + units_sz2) (fun j '(fullTempStr, i) =>
      t <- lift (load tempStr2 j) ;;
      fullTempStr <- lift (store fullTempStr i t) ;;
      ret (fullTempStr, i + 1)) (fullTempStr, i) ;;
    LCD_PrintStringCentered ascii_to_lcd (fst r) (to_uint8 (snd r)).

End Readouts.

(** ** A glyph table to run the model on

    The 5x7 font that examples for this display usually ship with, rows for
    the characters 0x20 to 0x7f.  The properties below are stated for every
    table; this one serves to evaluate the driver on concrete inputs. *)
Definition classic_font : list (list Z) :=
  [ [0x00;0x00;0x00;0x00;0x00]; [0x00;0x00;0x5f;0x00;0x00];
    [0x00;0x07;0x00;0x07;0x00]; [0x14;0x7f;0x14;0x7f;0x14];
    [0x24;0x2a;0x7f;0x2a;0x12]; [0x23;0x13;0x08;0x64;0x62];
    [0x36;0x49;0x55;0x22;0x50]; [0x00;0x05;0x03;0x00;0x00];
    [0x00;0x1c;0x22;0x41;0x00]; [0x00;0x41;0x22;0x1c;0x00];
    [0x14;0x08;0x3e;0x08;0x14]; [0x08;0x08;0x3e;0x08;0x08];
    [0x00;0x50;0x30;0x00;0x00]; [0x08;0x08;0x08;0x08;0x08];
    [0x00;0x60;0x60;0x00;0x00]; [0x20;0x10;0x08;0x04;0x02];
    [0x3e;0x51;0x49;0x45;0x3e]; [0x00;0x42;0x7f;0x40;0x00];
    [0x42;0x61;0x51;0x49;0x46]; [0x21;0x41;0x45;0x4b;0x31];
    [0x18;0x14;0x12;0x7f;0x10]; [0x27;0x45;0x45;0x45;0x39];
    [0x3c;0x4a;0x49;0x49;0x30]; [0x01;0x71;0x09;0x05;0x03];
    [0x36;0x49;0x49;0x49;0x36]; [0x06;0x49;0x49;0x29;0x1e];
    [0x00;0x36;0x36;0x00;0x00]; [0x00;0x56;0x36;0x00;0x00];
    [0x08;0x14;0x22;0x41;0x00]; [0x14;0x14;0x14;0x14;0x14];
    [0x00;0x41;0x22;0x14;0x08]; [0x02;0x01;0x51;0x09;0x06];
    [0x32;0x49;0x79;0x41;0x3e]; [0x7e;0x11;0x11;0x11;0x7e];
    [0x7f;0x49;0x49;0x49;0x36]; [0x3e;0x41;0x41;0x41;0x22];
    [0x7f;0x41;0x41;0x22;0x1c]; [0x7f;0x49;0x49;0x49;0x41];
    [0x7f;0x09;0x09;0x09;0x01]; [0x3e;0x41;0x49;0x49;0x7a];
    [0x7f;0x08;0x08;0x08;0x7f]; [0x00;0x41;0x7f;0x41;0x00];
    [0x20;0x40;0x41;0x3f;0x01]; [0x7f;0x08;0x14;0x22;0x41];
    [0x7f;0x40;0x40;0x40;0x40]; [0x7f;0x02;0x0c;0x02;0x7f];
    [0x7f;0x04;0x08;0x10;0x7f]; [0x3e;0x41;0x41;0x41;0x3e];
    [0x7f;0x09;0x09;0x09;0x06]; [0x3e;0x41;0x51;0x21;0x5e];
    [0x7f;0x09;0x19;0x29;0x46]; [0x46;0x49;0x49;0x49;0x31];
    [0x01;0x01;0x7f;0x01;0x01]; [0x3f;0x40;0x40;0x40;0x3f];
    [0x1f;0x20;0x40;0x20;0x1f]; [0x3f;0x40;0x38;0x40;0x3f];
    [0x63;0x14;0x08;0x14;0x63]; [0x07;0x08;0x70;0x08;0x07];
    [0x61;0x51;0x49;0x45;0x43]; [0x00;0x7f;0x41;0x41;0x00];
    [0x02;0x04;0x08;0x10;0x20]; [0x00;0x41;0x41;0x7f;0x00];
    [0x04;0x02;0x01;0x02;0x04]; [0x40;0x40;0x40;0x40;0x40];
    [0x00;0x01;0x02;0x04;0x00]; [0x20;0x54;0x54;0x54;0x78];
    [0x7f;0x48;0x44;0x44;0x38]; [0x38;0x44;0x44;0x44;0x20];
    [0x38;0x44;0x44;0x48;0x7f]; [0x38;0x54;0x54;0x54;0x18];
    [0x08;0x7e;0x09;0x01;0x02]; [0x0c;0x52;0x52;0x52;0x3e];
    [0x7f;0x08;0x04;0x04;0x78]; [0x00;0x44;0x7d;0x40;0x00];
    [0x20;0x40;0x44;0x3d;0x00]; [0x7f;0x10;0x28;0x44;0x00];
    [0x00;0x41;0x7f;0x40;0x00]; [0x7c;0x04;0x18;0x04;0x78];
    [0x7c;0x08;0x04;0x04;0x78]; [0x38;0x44;0x44;0x44;0x38];
    [0x7c;0x14;0x14;0x14;0x08]; [0x08;0x14;0x14;0x18;0x7c];
    [0x7c;0x08;0x04;0x04;0x08]; [0x48;0x54;0x54;0x54;0x20];
    [0x04;0x3f;0x44;0x40;0x20]; [0x3c;0x40;0x40;0x20;0x7c];
    [0x1c;0x20;0x40;0x20;0x1c]; [0x3c;0x40;0x30;0x40;0x3c];
    [0x44;0x28;0x10;0x28;0x44]; [0x0c;0x50;0x50;0x50;0x3c];
    [0x44;0x64;0x54;0x4c;0x44]; [0x00;0x08;0x36;0x41;0x00];
    [0x00;0x00;0x7f;0x00;0x00]; [0x00;0x41;0x36;0x08;0x00];
    [0x10;0x08;0x08;0x10;0x08]; [0x78;0x46;0x41;0x46;0x78] ].

(** ** Vocabulary of the properties *)

(** A glyph row is well formed when it has its 5 [uint8_t] columns. *)
Definition glyph_ok (g : list Z) : bool :=
  (length g =? 5)%nat && forallb is_uint8 g.

Definition table_ok (tbl : list (list Z)) : bool := forallb glyph_ok tbl.

(** An in-range character is a [char] that has a row in the table. *)
Definition in_range (tbl : list (list Z)) (c : Z) : bool :=
  (32 <=? c) && (c <? 32 + Z.of_nat (length tbl)) && (c <? 256).

(** The frames one glyph occupies on the display: its 5 columns, with a
    blank column on each side where the glyph touches that side. *)
Definition spacer (edge : Z) : list frame :=
  if edge =? 0 then [] else [Data 0].

Definition glyph_frames (g : list Z) : list frame :=
  spacer (nth 0 g 0) ++ map Data g ++ spacer (nth 4 g 0).

(** Rendered pixel width of a text: 5 columns per character, one more for
    each glyph touching its leading edge and one more for each glyph
    touching its trailing edge. *)
Definition edge_columns (g : list Z) : Z :=
  (if nth 0 g 0 =? 0 then 0 else 1) + (if nth 4 g 0 =? 0 then 0 else 1).

Definition glyph_of (tbl : list (list Z)) (c : Z) : list Z :=
  nth (Z.to_nat (c - 32)) tbl [].

Definition rendered_width (tbl : list (list Z)) (str : list Z) : Z :=
  fold_right (fun c w => 5 + edge_columns (glyph_of tbl c) + w) 0 str.

Definition text_frames (tbl : list (list Z)) (str : list Z) : list frame :=
  concat (map (fun c => glyph_frames (glyph_of tbl c)) str).

(** One round of the loop of [LCD_PrintStringCentered] that counts the
    spacer columns, as a function of the character read and of [numCol]. *)
Definition count_edges (tbl : list (list Z)) (ch numCol : Z) : M Z :=
  c <- lift (load tbl (ch - 32)) ;;
  c0 <- lift (load c 0) ;;
  let numCol := if c0 =? 0x00 then numCol else to_uint8 (numCol + 1) in
  c4 <- lift (load c 4) ;;
  let numCol := if c4 =? 0x00 then numCol else to_uint8 (numCol + 1) in
  ret numCol.

(** Reading a text as a decimal numeral, most significant digit first. *)
Definition digit_value (c : Z) : option Z :=
  if (48 <=? c) && (c <=? 57) then Some (c - 48) else None.

Fixpoint parse_decimal_from (acc : Z) (s : list Z) : option Z :=
  match s with
  | [] => Some acc
  | c :: s' => let? d := digit_value c in parse_decimal_from (10 * acc + d) s'
  end.

Definition parse_decimal (s : list Z) : option Z :=
  match s with
  | [] => None
  | _ => parse_decimal_from 0 s
  end.

(** The [n] low decimal digits of [d] as characters, least significant
    first: what [n] rounds of the digit loop write. *)
Fixpoint lsb_digits (n : nat) (d : Z) : list Z :=
  match n with
  | O => []
  | S k => (48 + d mod 10) :: lsb_digits k (d / 10)
  end.

(** [d] is written with exactly [n] decimal digits. *)
Definition digit_count_is (n : nat) (d : Z) : Prop :=
  match n with
  | O => False
  | S k => 0 <= d < 10 * 10 ^ Z.of_nat k /\ (k = O \/ 10 ^ Z.of_nat k <= d)
  end.

(** The two loops of [uintToStr] cut off after [n] rounds: [None] also when
    the loop would go on for longer. *)
Fixpoint digits_within (n : nat) (buf : list Z) (charsWritten dist : Z)
    : option (list Z * Z * Z) :=
  match n with
  | O => None
  | S k =>
      let? buf' := store buf charsWritten (to_char (48 + dist mod 10)) in
      if Z_gt_dec (dist / 10) 0
      then digits_within k buf' (to_uint8 (charsWritten + 1)) (dist / 10)
      else Some (buf', to_uint8 (charsWritten + 1), dist / 10)
  end.

Fixpoint reverse_within (n : nat) (buf : list Z) (i j : Z)
    : option (list Z * Z * Z) :=
  if Z_lt_dec i j then
    match n with
    | O => None
    | S k =>
        let? buf' := uintToStr_swap buf i j in
        reverse_within k buf' (i + 1) (j - 1)
    end
  else Some (buf, i, j).

(** Running a loop body over the elements of a list. *)
Fixpoint foldM {A S : Type} (f : A -> S -> M S) (l : list A) (s : S) : M S :=
  match l with
  | [] => ret s
  | a :: l' => s' <- f a s ;; foldM f l' s'
  end.

(** ** The remaining renderer entry points *)

Section Screens.

Variable ascii_to_lcd : list (list Z).

(** [for (int i = ' '; i < ' ' + sizeof(ascii_to_lcd)/sizeof(ascii_to_lcd[0]);
    i++) LCD_PrintCharacter(i);] where passing the [int] converts it to
    [char]. *)
Definition LCD_PrintAll : M unit :=
  r <- for_upto 32 (32 + Z.of_nat (length ascii_to_lcd))
         (fun i _ => LCD_PrintCharacter ascii_to_lcd (to_char i)) tt ;;
  ret (snd r).

Definition LCD_DistanceSetup : M unit :=
  LCD_ClearDisplay ;;
  LCD_SetY 1 ;;
  LCD_PrintStringCentered ascii_to_lcd (literal "DISTANCE:") 9 ;;
  LCD_SetY 3 ;;
  LCD_PrintStringCentered ascii_to_lcd (literal "TEMPERATURE:") 12.

End Screens.

(** ** Pin configuration

    The registers of port B that the two configuration routines touch, each
    a 32-bit word.  The shifts are shifts of the [int] constants [1] and
    [0xF]: [a << n] is undefined behaviour ([None]) when the count is
    outside [0, 31] and also when the result does not fit an [int], that is
    when [a * 2^n] reaches [2^31].  This is the case of [1 << 31] and of
    [0xF << 28]. *)

Definition to_uint32 (z : Z) : Z := z mod 2 ^ 32.

Definition shl32 (a n : Z) : option Z :=
  if (n <? 0) || (32 <=? n) || (2 ^ 31 <=? Z.shiftl a n) then None
  else Some (Z.shiftl a n).

Definition not32 (a : Z) : Z := to_uint32 (Z.lnot a).

Record GPIO_TypeDef : Type := {
  MODER : Z;
  OTYPER : Z;
  OSPEEDR : Z;
  PUPDR : Z;
  AFR0 : Z;
  AFR1 : Z
}.

Definition configGPIOB_output (pin : Z) (GPIOB : GPIO_TypeDef)
    : option GPIO_TypeDef :=
  let shift2x := to_uint32 (2 * pin) in
  let shift2xp1 := to_uint32 (shift2x + 1) in
  let? b0 := shl32 1 shift2x in
  let moder := Z.lor (MODER GPIOB) b0 in
  let? b1 := shl32 1 shift2xp1 in
  let moder := Z.land moder (not32 b1) in
  let? bp := shl32 1 pin in
  let otyper := Z.land (OTYPER GPIOB) (not32 bp) in
  let? b0 := shl32 1 shift2x in
  let? b1 := shl32 1 shift2xp1 in
  let ospeedr := Z.land (OSPEEDR GPIOB) (not32 (Z.lor b0 b1)) in
  let? b0 := shl32 1 shift2x in
  let? b1 := shl32 1 shift2xp1 in
  let pupdr := Z.land (PUPDR GPIOB) (not32 (Z.lor b0 b1)) in
  Some {| MODER := moder; OTYPER := otyper; OSPEEDR := ospeedr;
          PUPDR := pupdr; AFR0 := AFR0 GPIOB; AFR1 := AFR1 GPIOB |}.

Definition configPinB_AF0 (x : Z) (GPIOB : GPIO_TypeDef)
    : option GPIO_TypeDef :=
  let? b0 := shl32 1 (2 * x) in
  let moder := Z.land (MODER GPIOB) (not32 b0) in
  let? b1 := shl32 1 (2 * x + 1) in
  let moder := Z.lor moder b1 in
  let? bp := shl32 1 x in
  let otyper := Z.land (OTYPER GPIOB) (not32 bp) in
  let? b0 := shl32 1 (2 * x) in
  let? b1 := shl32 1 (2 * x + 1) in
  let ospeedr := Z.lor (OSPEEDR GPIOB) (Z.lor b0 b1) in
  let? b0 := shl32 1 (2 * x) in
  let? b1 := shl32 1 (2 * x + 1) in
  let pupdr := Z.land (PUPDR GPIOB) (not32 (Z.lor b0 b1)) in
  if x <? 8 then
    let? f := shl32 0xF (4 * x) in
    Some {| MODER := moder; OTYPER := otyper; OSPEEDR := ospeedr;
            PUPDR := pupdr; AFR0 := Z.land (AFR0 GPIOB) (not32 f);
            AFR1 := AFR1 GPIOB |}
  else
    let? f := shl32 0xF (4 * (x - 8)) in
    Some {| MODER := moder; OTYPER := otyper; OSPEEDR := ospeedr;
            PUPDR := pupdr; AFR0 := AFR0 GPIOB;
            AFR1 := Z.land (AFR1 GPIOB) (not32 f) |}.

(** ** More vocabulary *)

(** The number of decimal digits of a [uint16_t], and its decimal text. *)
Definition uint16_digits (v : Z) : nat :=
  if v <? 10 then 1
  else if v <? 100 then 2
  else if v <? 1000 then 3
  else if v <? 10000 then 4
  else 5.

Definition decimal_text (v : Z) : list Z :=
  rev (lsb_digits (uint16_digits v) v).

(** One round of the loops that copy a character to [str[j]] and advance
    [j], as a function of the character read. *)
Definition put_next (u : Z) (s : list Z * Z) : M (list Z * Z) :=
  let '(str, j) := s in
  str <- lift (store str j u) ;;
  ret (str, j + 1).

(** The frames of a text centered on a row, for a text that fits. *)
Definition centered_frames (tbl : list (list Z)) (text : list Z)
    : list frame :=
  Command (Z.lor 0x80 ((84 - rendered_width tbl text) / 2))
  :: text_frames tbl text.

(** * Properties *)

(** ** The monad and the loops *)

Lemma bind_ret_l {A B : Type} (a : A) (k : A -> M B) : bind (ret a) k = k a.
Proof.
  unfold bind, ret. destruct (k a) as [[b tr]|]; reflexivity.
Qed.

Lemma bind_ret_r {A : Type} (m : M A) : bind m ret = m.
Proof.
  destruct m as [[a tr]|]; [|reflexivity].
  simpl. rewrite app_nil_r. reflexivity.
Qed.

Lemma bind_assoc {A B C : Type} (m : M A) (f : A -> M B) (g : B -> M C) :
  bind (bind m f) g = bind m (fun a => bind (f a) g).
Proof.
  destruct m as [[a tr]|]; [|reflexivity]. simpl.
  destruct (f a) as [[b tr1]|]; [|reflexivity]. simpl.
  destruct (g b) as [[c tr2]|]; [|reflexivity].
  rewrite app_assoc. reflexivity.
Qed.

Lemma ret_congr {A : Type} (a b : A) : a = b -> ret a = ret b.
Proof. intros E. rewrite E. reflexivity. Qed.

Lemma bind_some {A B : Type} (a : A) (tr : list frame) (k : A -> M B) :
  bind (Some (a, tr)) k =
  match k a with Some (b, tr') => Some (b, tr ++ tr') | None => None end.
Proof. reflexivity. Qed.

Lemma bind_ext {A B : Type} (m : M A) (f g : A -> M B) :
  (forall a, f a = g a) -> bind m f = bind m g.
Proof.
  intros E. destruct m as [[a tr]|]; [|reflexivity]. simpl. rewrite E.
  reflexivity.
Qed.

(** A loop whose body only sends the same frames on every round. *)
Lemma for_from_const (fs : list frame) (n : nat) (i : Z) :
  for_from n i (fun _ _ => Some (tt, fs)) tt
  = Some ((i + Z.of_nat n, tt), concat (repeat fs n)).
Proof.
  revert i. induction n as [|n IH]; intros i.
  - simpl. unfold ret. do 3 f_equal. lia.
  - cbn [for_from]. rewrite bind_some, IH. cbn [repeat concat].
    do 3 f_equal. lia.
Qed.

Lemma for_range_const (fs : list frame) (n : Z) :
  for_range n (fun _ _ => Some (tt, fs)) tt
  = Some (tt, concat (repeat fs (Z.to_nat n))).
Proof.
  unfold for_range, for_upto. rewrite Z.sub_0_r, for_from_const.
  simpl. rewrite app_nil_r. reflexivity.
Qed.

Lemma concat_repeat_singleton {A : Type} (a : A) (n : nat) :
  concat (repeat [a] n) = repeat a n.
Proof. induction n; simpl; congruence. Qed.

(** ** Bounded integers *)

(** A decidable property of the integers below [n] holds of all of them as
    soon as it evaluates to [true] on each. *)
Lemma below_forallb (f : Z -> bool) (n : nat) :
  forallb f (map Z.of_nat (seq 0 n)) = true ->
  forall z, 0 <= z < Z.of_nat n -> f z = true.
Proof.
  intros H z Hz. rewrite forallb_forall in H. apply H.
  apply in_map_iff. exists (Z.to_nat z). split; [lia|].
  apply in_seq. lia.
Qed.

Lemma to_uint8_small (z : Z) : 0 <= z < 256 -> to_uint8 z = z.
Proof. intros H. apply Z.mod_small. exact H. Qed.

Lemma column_command_byte (x : Z) :
  0 <= x <= 83 -> to_uint8 (to_char (Z.lor 0x80 x)) = Z.lor 0x80 x.
Proof.
  intros H.
  apply Z.eqb_eq.
  apply (below_forallb
           (fun x => to_uint8 (to_char (Z.lor 0x80 x)) =? Z.lor 0x80 x) 84);
    [vm_compute; reflexivity | lia].
Qed.

Lemma row_command_byte (y : Z) :
  0 <= y <= 5 -> to_uint8 (to_char (Z.lor 0x40 y)) = Z.lor 0x40 y.
Proof.
  intros H.
  apply Z.eqb_eq.
  apply (below_forallb
           (fun y => to_uint8 (to_char (Z.lor 0x40 y)) =? Z.lor 0x40 y) 6);
    [vm_compute; reflexivity | lia].
Qed.

(** ** Cursor addressing *)

Lemma LCD_SetX_in_range (x : Z) :
  0 <= x <= 83 -> LCD_SetX x = Some (tt, [Command (Z.lor 0x80 x)]).
Proof.
  intros H. unfold LCD_SetX.
  destruct (x >? 83) eqn:E; [lia|].
  unfold LCD_SendCommand, LCD_SendByte, send.
  rewrite column_command_byte by exact H. reflexivity.
Qed.

Lemma LCD_SetX_out_of_range (x : Z) : 83 < x -> LCD_SetX x = Some (tt, []).
Proof.
  intros H. unfold LCD_SetX. destruct (x >? 83) eqn:E; [reflexivity|lia].
Qed.

Lemma LCD_SetY_in_range (y : Z) :
  0 <= y <= 5 -> LCD_SetY y = Some (tt, [Command (Z.lor 0x40 y)]).
Proof.
  intros H. unfold LCD_SetY.
  destruct (y >? 5) eqn:E; [lia|].
  unfold LCD_SendCommand, LCD_SendByte, send.
  rewrite row_command_byte by exact H. reflexivity.
Qed.

Lemma LCD_SetY_out_of_range (y : Z) : 5 < y -> LCD_SetY y = Some (tt, []).
Proof.
  intros H. unfold LCD_SetY. destruct (y >? 5) eqn:E; [reflexivity|lia].
Qed.

(** C3. For x in [0,83] LCD_SetX sends exactly one frame, the command byte
    0x80 | x, and for x > 83 it sends nothing; for y in [0,5] LCD_SetY sends
    exactly one frame, the command byte 0x40 | y, and for y > 5 it sends
    nothing. *)
Theorem LCD_SetX_SetY_frames (x y : Z) :
  0 <= x -> 0 <= y ->
  (x <= 83 -> LCD_SetX x = Some (tt, [Command (Z.lor 0x80 x)])) /\
  (83 < x -> LCD_SetX x = Some (tt, [])) /\
  (y <= 5 -> LCD_SetY y = Some (tt, [Command (Z.lor 0x40 y)])) /\
  (5 < y -> LCD_SetY y = Some (tt, [])).
Proof.
  intros Hx Hy. split; [|split; [|split]]; intros H.
  - apply LCD_SetX_in_range; lia.
  - apply LCD_SetX_out_of_range; exact H.
  - apply LCD_SetY_in_range; lia.
  - apply LCD_SetY_out_of_range; exact H.
Qed.

Lemma LCD_SetX_SetY_frames_witness :
  LCD_SetX 83 = Some (tt, [Command 0xd3]) /\
  LCD_SetX 84 = Some (tt, []) /\
  LCD_SetY 5 = Some (tt, [Command 0x45]) /\
  LCD_SetY 6 = Some (tt, []).
Proof.
  destruct (LCD_SetX_SetY_frames 83 5 ltac:(lia) ltac:(lia)) as (A & _ & B & _).
  destruct (LCD_SetX_SetY_frames 84 6 ltac:(lia) ltac:(lia)) as (_ & C & _ & D).
  split; [|split; [|split]].
  - apply A; lia.
  - apply C; lia.
  - apply B; lia.
  - apply D; lia.
Defined.

(** ** Clearing *)

Lemma LCD_SendData_zero : LCD_SendData 0x00 = Some (tt, [Data 0]).
Proof. reflexivity. Qed.

Lemma blank_columns (n : Z) :
  for_range n (fun _ _ => LCD_SendData 0x00) tt
  = Some (tt, repeat (Data 0) (Z.to_nat n)).
Proof.
  rewrite LCD_SendData_zero, for_range_const, concat_repeat_singleton.
  reflexivity.
Qed.

Lemma LCD_Reset_frames :
  LCD_Reset = Some (tt, [Command (Z.lor 0x80 0); Command (Z.lor 0x40 0)]).
Proof.
  unfold LCD_Reset, LCD_ResetX, LCD_ResetY.
  rewrite LCD_SetX_in_range, LCD_SetY_in_range by lia. reflexivity.
Qed.

(** C6. LCD_ClearDisplay first addresses column 0 and row-group 0 (the
    command bytes 0x80 and 0x40 of LCD_Reset) and then sends exactly
    84 * 48 / 8 = 504 data bytes, all 0x00, and nothing else. *)
Theorem LCD_ClearDisplay_frames :
  LCD_Reset = Some (tt, [Command 0x80; Command 0x40]) /\
  LCD_ClearDisplay
  = Some (tt, [Command 0x80; Command 0x40] ++ repeat (Data 0x00) 504) /\
  84 * 48 / 8 = 504.
Proof.
  split; [exact LCD_Reset_frames|]. split; [|reflexivity].
  unfold LCD_ClearDisplay.
  rewrite LCD_Reset_frames, bind_some, blank_columns. reflexivity.
Qed.

Lemma LCD_ClearRow_unfold (y x : Z) (row col : list frame) :
  LCD_SetY y = Some (tt, row) ->
  LCD_SetX x = Some (tt, col) ->
  LCD_ClearRow y x
  = Some (tt, row ++ col ++ repeat (Data 0) (Z.to_nat (84 - x))).
Proof.
  intros Hy Hx. unfold LCD_ClearRow.
  rewrite Hy, Hx, blank_columns. reflexivity.
Qed.

Lemma LCD_SetY_total (y : Z) :
  0 <= y ->
  exists row, LCD_SetY y = Some (tt, row) /\ filter is_data row = [] /\
    (y <= 5 -> row = [Command (Z.lor 0x40 y)]).
Proof.
  intros Hy. destruct (Z_le_gt_dec y 5) as [L|G].
  - exists [Command (Z.lor 0x40 y)].
    rewrite LCD_SetY_in_range by lia. auto.
  - exists []. rewrite LCD_SetY_out_of_range by lia.
    split; [reflexivity|]. split; [reflexivity|]. lia.
Qed.

(** C8. LCD_ClearRow y x sends the row address, then the column address,
    then one 0x00 data byte per column from x through 83: exactly 84 - x of
    them when x <= 83, and no data byte at all when x >= 84 (the bound
    84 - x is then a negative int, not a large unsigned count). *)
Theorem LCD_ClearRow_frames (y x : Z) :
  0 <= y < 256 -> 0 <= x < 256 ->
  exists row,
    LCD_SetY y = Some (tt, row) /\
    filter is_data row = [] /\
    (y <= 5 -> row = [Command (Z.lor 0x40 y)]) /\
    (x <= 83 ->
       LCD_ClearRow y x
       = Some (tt, row ++ [Command (Z.lor 0x80 x)]
                       ++ repeat (Data 0x00) (Z.to_nat (84 - x))) /\
       Z.of_nat (length (repeat (Data 0x00) (Z.to_nat (84 - x)))) = 84 - x) /\
    (84 <= x -> LCD_ClearRow y x = Some (tt, row)).
Proof.
  intros Hy Hx.
  destruct (LCD_SetY_total y) as (row & Hrow & Hnodata & Hcmd); [lia|].
  exists row. split; [exact Hrow|]. split; [exact Hnodata|].
  split; [exact Hcmd|]. split; intros H.
  - split.
    + apply LCD_ClearRow_unfold; [exact Hrow|].
      apply LCD_SetX_in_range; lia.
    + rewrite repeat_length. lia.
  - rewrite (LCD_ClearRow_unfold y x row []);
      [|exact Hrow|apply LCD_SetX_out_of_range; lia].
    replace (Z.to_nat (84 - x)) with 0%nat by lia.
    simpl. rewrite app_nil_r. reflexivity.
Qed.

Lemma LCD_ClearRow_frames_witness :
  LCD_ClearRow 2 80
  = Some (tt, [Command 0x42; Command 0xd0; Data 0; Data 0; Data 0; Data 0]) /\
  LCD_ClearRow 2 84 = Some (tt, [Command 0x42]) /\
  LCD_ClearRow 9 255 = Some (tt, []).
Proof.
  destruct (LCD_ClearRow_frames 2 80 ltac:(lia) ltac:(lia))
    as (r1 & S1 & _ & _ & A & _).
  destruct (LCD_ClearRow_frames 2 84 ltac:(lia) ltac:(lia))
    as (r2 & S2 & _ & _ & _ & B).
  destruct (LCD_ClearRow_frames 9 255 ltac:(lia) ltac:(lia))
    as (r3 & S3 & _ & _ & _ & C).
  vm_compute in S1, S2, S3.
  inversion S1; inversion S2; inversion S3; subst.
  split; [|split].
  - apply A; lia.
  - apply B; lia.
  - apply C; lia.
Defined.

(** ** Glyph renderer *)

Section RendererProperties.

Variable tbl : list (list Z).
Hypothesis tbl_ok : table_ok tbl = true.

Lemma in_range_bounds (c : Z) :
  in_range tbl c = true ->
  32 <= c < 256 /\ (Z.to_nat (c - 32) < length tbl)%nat.
Proof.
  unfold in_range. rewrite !andb_true_iff. lia.
Qed.

Lemma load_glyph (c : Z) :
  in_range tbl c = true -> load tbl (c - 32) = Some (glyph_of tbl c).
Proof.
  intros H. apply in_range_bounds in H. destruct H as [Hc Hlen].
  unfold load, glyph_of. destruct (c - 32 <? 0) eqn:E; [lia|].
  apply nth_error_nth'. exact Hlen.
Qed.

Lemma glyph_of_ok (c : Z) :
  in_range tbl c = true -> glyph_ok (glyph_of tbl c) = true.
Proof.
  intros H. apply in_range_bounds in H. destruct H as [_ Hlen].
  unfold table_ok in tbl_ok. rewrite forallb_forall in tbl_ok.
  apply tbl_ok. unfold glyph_of. apply nth_In. exact Hlen.
Qed.

Lemma glyph_ok_columns (g : list Z) :
  glyph_ok g = true ->
  exists g0 g1 g2 g3 g4,
    g = [g0; g1; g2; g3; g4] /\
    0 <= g0 < 256 /\ 0 <= g1 < 256 /\ 0 <= g2 < 256 /\
    0 <= g3 < 256 /\ 0 <= g4 < 256.
Proof.
  unfold glyph_ok. rewrite andb_true_iff, Nat.eqb_eq. intros [Hlen Hb].
  destruct g as [|g0 [|g1 [|g2 [|g3 [|g4 [|]]]]]]; try discriminate.
  exists g0, g1, g2, g3, g4. split; [reflexivity|].
  cbn [forallb] in Hb. unfold is_uint8 in Hb.
  rewrite !andb_true_iff in Hb. lia.
Qed.

Lemma LCD_SendData_byte (b : Z) :
  0 <= b < 256 -> LCD_SendData b = Some (tt, [Data b]).
Proof.
  intros H. unfold LCD_SendData, LCD_SendByte, send.
  rewrite to_uint8_small by exact H. reflexivity.
Qed.

Lemma LCD_PrintCharacter_glyph (c : Z) :
  in_range tbl c = true ->
  LCD_PrintCharacter tbl c = Some (tt, glyph_frames (glyph_of tbl c)).
Proof.
  intros H.
  pose proof (load_glyph c H) as Hload.
  destruct (glyph_ok_columns _ (glyph_of_ok c H))
    as (g0 & g1 & g2 & g3 & g4 & Hg & B0 & B1 & B2 & B3 & B4).
  rewrite Hg in *. clear Hg.
  apply in_range_bounds in H. destruct H as [Hc _].
  unfold LCD_PrintCharacter, glyph_column, for_range, for_upto.
  unfold to_char. rewrite to_uint8_small by lia. rewrite Hload.
  unfold glyph_frames, spacer. cbn [nth map].
  destruct g0 as [|p0|p0]; destruct g4 as [|p4|p4]; try lia;
    cbv -[Z.modulo]; rewrite !Z.mod_small by lia; reflexivity.
Qed.

End RendererProperties.

(** C7. For an in-range character, LCD_PrintCharacter sends one 0x00 spacer
    data byte right before the glyph exactly when the glyph's first column is
    non-zero, then the 5 glyph columns in order, then one 0x00 spacer data
    byte exactly when the glyph's fifth column is non-zero; the two decisions
    do not depend on one another. *)
Theorem LCD_PrintCharacter_frames (tbl : list (list Z)) (c : Z) :
  table_ok tbl = true ->
  in_range tbl c = true ->
  exists g0 g1 g2 g3 g4,
    load tbl (c - 32) = Some [g0; g1; g2; g3; g4] /\
    LCD_PrintCharacter tbl c
    = Some (tt, (if g0 =? 0x00 then [] else [Data 0x00])
                ++ [Data g0; Data g1; Data g2; Data g3; Data g4]
                ++ (if g4 =? 0x00 then [] else [Data 0x00])).
Proof.
  intros Hok Hc.
  destruct (glyph_ok_columns _ (glyph_of_ok tbl Hok c Hc))
    as (g0 & g1 & g2 & g3 & g4 & Hg & _).
  exists g0, g1, g2, g3, g4.
  rewrite load_glyph, LCD_PrintCharacter_glyph, Hg by assumption.
  split; reflexivity.
Qed.

Lemma LCD_PrintCharacter_frames_witness :
  LCD_PrintCharacter classic_font 74
  = Some (tt, [Data 0; Data 0x20; Data 0x40; Data 0x41; Data 0x3f; Data 0x01;
               Data 0]) /\
  LCD_PrintCharacter classic_font 60
  = Some (tt, [Data 0; Data 0x08; Data 0x14; Data 0x22; Data 0x41; Data 0x00])
  /\
  LCD_PrintCharacter classic_font 62
  = Some (tt, [Data 0x00; Data 0x41; Data 0x22; Data 0x14; Data 0x08; Data 0])
  /\
  LCD_PrintCharacter classic_font 46
  = Some (tt, [Data 0x00; Data 0x60; Data 0x60; Data 0x00; Data 0x00]).
Proof.
  assert (Hok : table_ok classic_font = true) by reflexivity.
  assert (W : forall c g0 g1 g2 g3 g4,
    in_range classic_font c = true ->
    load classic_font (c - 32) = Some [g0; g1; g2; g3; g4] ->
    LCD_PrintCharacter classic_font c
    = Some (tt, (if g0 =? 0x00 then [] else [Data 0x00])
                ++ [Data g0; Data g1; Data g2; Data g3; Data g4]
                ++ (if g4 =? 0x00 then [] else [Data 0x00]))).
  { intros c g0 g1 g2 g3 g4 Hc Hl.
    destruct (LCD_PrintCharacter_frames classic_font c Hok Hc)
      as (h0 & h1 & h2 & h3 & h4 & Hl' & Hp).
    rewrite Hl in Hl'. inversion Hl'; subst. exact Hp. }
  split; [|split; [|split]].
  - apply (W 74 0x20 0x40 0x41 0x3f 0x01); reflexivity.
  - apply (W 60 0x08 0x14 0x22 0x41 0x00); reflexivity.
  - apply (W 62 0x00 0x41 0x22 0x14 0x08); reflexivity.
  - apply (W 46 0x00 0x60 0x60 0x00 0x00); reflexivity.
Defined.

(** ** Loops over a text *)

Lemma load_middle {A : Type} (pre : list A) (a : A) (post : list A) :
  load (pre ++ a :: post) (Z.of_nat (length pre)) = Some a.
Proof.
  unfold load. destruct (Z.ltb_spec (Z.of_nat (length pre)) 0) as [E|E];
    [exfalso; lia|].
  rewrite Nat2Z.id, nth_error_app2 by lia.
  rewrite Nat.sub_diag. reflexivity.
Qed.

Lemma for_from_load {A S : Type} (f : A -> S -> M S) (l : list A) :
  forall (pre rest : list A) (s : S),
    for_from (length l) (Z.of_nat (length pre))
      (fun i s => ch <- lift (load (pre ++ l ++ rest) i) ;; f ch s) s
    = (s' <- foldM f l s ;; ret (Z.of_nat (length pre + length l), s')).
Proof.
  induction l as [|a l IH]; intros pre rest s.
  - cbn [for_from foldM length]. rewrite bind_ret_l, Nat.add_0_r.
    reflexivity.
  - cbn [for_from foldM length].
    cbn [app]. rewrite load_middle. cbn [lift]. rewrite bind_ret_l.
    rewrite bind_assoc. apply bind_ext. intros s'.
    specialize (IH (pre ++ [a]) rest s').
    rewrite <- app_assoc in IH. cbn [app] in IH.
    rewrite length_app in IH. cbn [length] in IH.
    replace (Z.of_nat (length pre) + 1)
      with (Z.of_nat (length pre + 1)) by lia.
    rewrite IH.
    replace (length pre + 1 + length l)%nat
      with (length pre + Datatypes.S (length l))%nat by lia.
    reflexivity.
Qed.

(** A loop that reads [str[i]] for [i < sz] runs its body over the first
    [sz] characters of [str]. *)
Lemma for_range_load {A S : Type} (f : A -> S -> M S) (str : list A)
    (sz : Z) (s : S) :
  0 <= sz <= Z.of_nat (length str) ->
  for_range sz (fun i s => ch <- lift (load str i) ;; f ch s) s
  = foldM f (firstn (Z.to_nat sz) str) s.
Proof.
  intros H. unfold for_range, for_upto. rewrite Z.sub_0_r.
  pose proof (firstn_skipn (Z.to_nat sz) str) as Hsplit.
  assert (Hlen : length (firstn (Z.to_nat sz) str) = Z.to_nat sz)
    by (rewrite length_firstn; lia).
  pose proof (for_from_load f (firstn (Z.to_nat sz) str) []
                (skipn (Z.to_nat sz) str) s) as Hloop.
  cbn [app length Nat.add] in Hloop.
  rewrite Hsplit, Hlen in Hloop. change (Z.of_nat 0) with 0 in Hloop.
  rewrite Hloop.
  rewrite bind_assoc.
  rewrite <- (bind_ret_r (foldM f (firstn (Z.to_nat sz) str) s)) at 2.
  apply bind_ext. intros s'. rewrite bind_ret_l. reflexivity.
Qed.

Section TextProperties.

Variable tbl : list (list Z).
Hypothesis tbl_ok : table_ok tbl = true.

Lemma edge_columns_bounds (g : list Z) : 0 <= edge_columns g <= 2.
Proof.
  unfold edge_columns.
  destruct (nth 0 g 0 =? 0); destruct (nth 4 g 0 =? 0); lia.
Qed.

Lemma rendered_width_bounds (str : list Z) :
  5 * Z.of_nat (length str) <= rendered_width tbl str
  <= 7 * Z.of_nat (length str).
Proof.
  induction str as [|c str IH]; [simpl; lia|].
  cbn [rendered_width fold_right length].
  fold (rendered_width tbl str).
  pose proof (edge_columns_bounds (glyph_of tbl c)). lia.
Qed.

Lemma glyph_frames_length (g : list Z) :
  length g = 5%nat ->
  Z.of_nat (length (glyph_frames g)) = 5 + edge_columns g.
Proof.
  intros H. unfold glyph_frames, edge_columns, spacer.
  rewrite !length_app, length_map, H.
  destruct (nth 0 g 0 =? 0); destruct (nth 4 g 0 =? 0); simpl; lia.
Qed.

Lemma glyph_frames_data (g : list Z) :
  forallb is_data (glyph_frames g) = true.
Proof.
  unfold glyph_frames, spacer. rewrite !forallb_app.
  destruct (nth 0 g 0 =? 0); destruct (nth 4 g 0 =? 0); simpl;
    rewrite ?andb_true_r; induction g; simpl; auto.
Qed.

Lemma text_frames_length (str : list Z) :
  forallb (in_range tbl) str = true ->
  Z.of_nat (length (text_frames tbl str)) = rendered_width tbl str.
Proof.
  induction str as [|c str IH]; intros H; [reflexivity|].
  cbn [forallb] in H. apply andb_true_iff in H. destruct H as [Hc Hs].
  unfold text_frames in *. cbn [map concat rendered_width fold_right].
  fold (rendered_width tbl str).
  rewrite length_app, Nat2Z.inj_add, IH by exact Hs.
  rewrite glyph_frames_length; [lia|].
  destruct (glyph_ok_columns _ (glyph_of_ok tbl tbl_ok c Hc))
    as (g0 & g1 & g2 & g3 & g4 & Hg & _).
  rewrite Hg. reflexivity.
Qed.

Lemma text_frames_data (str : list Z) :
  forallb is_data (text_frames tbl str) = true.
Proof.
  induction str as [|c str IH]; [reflexivity|].
  unfold text_frames in *. cbn [map concat].
  rewrite forallb_app, glyph_frames_data, IH. reflexivity.
Qed.

(** Printing in-range characters sends their glyphs one after the other. *)
Lemma print_characters (str : list Z) :
  forallb (in_range tbl) str = true ->
  foldM (fun ch _ => LCD_PrintCharacter tbl ch) str tt
  = Some (tt, text_frames tbl str).
Proof.
  induction str as [|c str IH]; intros H; [reflexivity|].
  cbn [forallb] in H. apply andb_true_iff in H. destruct H as [Hc Hs].
  cbn [foldM]. rewrite LCD_PrintCharacter_glyph by assumption.
  rewrite bind_some, IH by exact Hs. reflexivity.
Qed.

Lemma LCD_PrintString_text (str : list Z) (sz : Z) :
  0 <= sz <= Z.of_nat (length str) ->
  forallb (in_range tbl) (firstn (Z.to_nat sz) str) = true ->
  LCD_PrintString tbl str sz
  = Some (tt, text_frames tbl (firstn (Z.to_nat sz) str)).
Proof.
  intros Hsz Hr. unfold LCD_PrintString.
  rewrite (for_range_load (fun ch _ => LCD_PrintCharacter tbl ch))
    by exact Hsz.
  apply print_characters. exact Hr.
Qed.

Lemma count_edges_glyph (ch numCol : Z) :
  in_range tbl ch = true ->
  0 <= numCol -> numCol + edge_columns (glyph_of tbl ch) < 256 ->
  count_edges tbl ch numCol = ret (numCol + edge_columns (glyph_of tbl ch)).
Proof.
  intros Hc Hn Hb. unfold count_edges.
  rewrite load_glyph by exact Hc.
  destruct (glyph_ok_columns _ (glyph_of_ok tbl tbl_ok ch Hc))
    as (g0 & g1 & g2 & g3 & g4 & Hg & _).
  rewrite Hg in *. unfold edge_columns in *. cbn [nth] in *.
  cbn [lift]. rewrite bind_ret_l.
  change (load [g0; g1; g2; g3; g4] 0) with (Some g0).
  change (load [g0; g1; g2; g3; g4] 4) with (Some g4).
  cbn [lift]. rewrite !bind_ret_l.
  destruct (g0 =? 0); destruct (g4 =? 0);
    try rewrite (to_uint8_small (numCol + 1)) by lia;
    try rewrite (to_uint8_small (numCol + 1 + 1)) by lia;
    apply ret_congr; lia.
Qed.

Lemma count_columns (str : list Z) :
  forall numCol,
    forallb (in_range tbl) str = true ->
    0 <= numCol ->
    numCol + (rendered_width tbl str - 5 * Z.of_nat (length str)) < 256 ->
    foldM (count_edges tbl) str numCol
    = ret (numCol + (rendered_width tbl str - 5 * Z.of_nat (length str))).
Proof.
  induction str as [|c str IH]; intros numCol H Hn Hb.
  - cbn [foldM rendered_width fold_right length]. apply ret_congr. lia.
  - cbn [forallb] in H. apply andb_true_iff in H. destruct H as [Hc Hs].
    cbn [rendered_width fold_right length] in *.
    fold (rendered_width tbl str) in *.
    pose proof (rendered_width_bounds str) as Hw.
    pose proof (edge_columns_bounds (glyph_of tbl c)) as He.
    cbn [foldM]. rewrite count_edges_glyph by (assumption || lia).
    rewrite bind_ret_l, IH by (assumption || lia).
    apply ret_congr. lia.
Qed.

(** Layout of a centered text that fits the display. *)
Lemma LCD_PrintStringCentered_layout (str : list Z) (sz : Z) :
  0 <= sz <= Z.of_nat (length str) ->
  forallb (in_range tbl) (firstn (Z.to_nat sz) str) = true ->
  rendered_width tbl (firstn (Z.to_nat sz) str) <= 84 ->
  LCD_PrintStringCentered tbl str sz
  = Some (tt,
          Command
            (Z.lor 0x80
               ((84 - rendered_width tbl (firstn (Z.to_nat sz) str)) / 2))
          :: text_frames tbl (firstn (Z.to_nat sz) str)).
Proof.
  intros Hsz Hr Hw.
  set (text := firstn (Z.to_nat sz) str) in *.
  pose proof (rendered_width_bounds text) as Hb.
  assert (Hlen : Z.of_nat (length text) = sz)
    by (unfold text; rewrite length_firstn; lia).
  unfold LCD_PrintStringCentered.
  change (fun (i numCol : Z) =>
            ch <- lift (load str i) ;;
            c <- lift (load tbl (ch - 32)) ;;
            c0 <- lift (load c 0) ;;
            c4 <- lift (load c 4) ;;
            ret (if c4 =? 0
                 then if c0 =? 0 then numCol else to_uint8 (numCol + 1)
                 else to_uint8
                        ((if c0 =? 0 then numCol else to_uint8 (numCol + 1))
                         + 1)))
    with (fun (i numCol : Z) =>
            ch <- lift (load str i) ;; count_edges tbl ch numCol).
  rewrite (for_range_load (count_edges tbl)) by exact Hsz. fold text.
  rewrite to_uint8_small by lia.
  rewrite count_columns by (assumption || lia).
  rewrite bind_ret_l.
  replace (sz * 5 + (rendered_width tbl text - 5 * Z.of_nat (length text)))
    with (rendered_width tbl text) by lia.
  rewrite Z.quot_div_nonneg by lia.
  assert (0 <= (84 - rendered_width tbl text) / 2 <= 42).
  { split; [apply Z.div_pos; lia|].
    apply Z.div_le_upper_bound; lia. }
  rewrite to_uint8_small by lia.
  rewrite LCD_SetX_in_range by lia.
  rewrite LCD_PrintString_text by assumption. reflexivity.
Qed.

End TextProperties.

(** C4. For a text of in-range characters whose rendered width w (5 columns
    per character, plus one per glyph touching its leading edge, plus one per
    glyph touching its trailing edge) is at most 84, LCD_PrintStringCentered
    sets the column to floor((84 - w) / 2) before printing the text, the text
    takes exactly w data columns, and start + w <= 84. *)
Theorem LCD_PrintStringCentered_centering (tbl : list (list Z))
    (str : list Z) :
  table_ok tbl = true ->
  forallb (in_range tbl) str = true ->
  rendered_width tbl str <= 84 ->
  let w := rendered_width tbl str in
  let start := (84 - w) / 2 in
  exists glyphs,
    LCD_PrintString tbl str (Z.of_nat (length str)) = Some (tt, glyphs) /\
    Z.of_nat (length glyphs) = w /\
    forallb is_data glyphs = true /\
    LCD_SetX start = Some (tt, [Command (Z.lor 0x80 start)]) /\
    LCD_PrintStringCentered tbl str (Z.of_nat (length str))
    = Some (tt, Command (Z.lor 0x80 start) :: glyphs) /\
    0 <= start /\ start + w <= 84.
Proof.
  intros Hok Hr Hw w start.
  assert (Hfirst : firstn (Z.to_nat (Z.of_nat (length str))) str = str)
    by (rewrite Nat2Z.id; apply firstn_all).
  pose proof (rendered_width_bounds tbl str) as Hb. fold w in Hb.
  assert (Hstart : 0 <= start <= 42).
  { unfold start. split; [apply Z.div_pos; lia|].
    apply Z.div_le_upper_bound; lia. }
  assert (Hfit : start + w <= 84).
  { assert (start <= 84 - w); [|lia].
    unfold start. apply Z.div_le_upper_bound; lia. }
  exists (text_frames tbl str).
  split; [|split; [|split; [|split; [|split; [|split]]]]].
  - rewrite LCD_PrintString_text; rewrite ?Hfirst; try assumption;
      [reflexivity | lia].
  - apply text_frames_length; assumption.
  - apply text_frames_data.
  - apply LCD_SetX_in_range. lia.
  - rewrite LCD_PrintStringCentered_layout; rewrite ?Hfirst; try assumption;
      [reflexivity | lia].
  - lia.
  - exact Hfit.
Qed.

Lemma LCD_PrintStringCentered_centering_witness :
  exists glyphs,
    LCD_PrintString classic_font (chars "OUT OF RANGE") 12
    = Some (tt, glyphs) /\
    Z.of_nat (length glyphs) = 80 /\
    LCD_PrintStringCentered classic_font (chars "OUT OF RANGE") 12
    = Some (tt, Command 0x82 :: glyphs).
Proof.
  destruct (LCD_PrintStringCentered_centering classic_font
              (chars "OUT OF RANGE") eq_refl eq_refl
              ltac:(vm_compute; discriminate))
    as (glyphs & Hp & Hl & _ & _ & Hc & _).
  exists glyphs. split; [exact Hp|]. split; [exact Hl | exact Hc].
Defined.

(** ** Readout formatter: the two loops of uintToStr *)

Lemma uintToStr_digits_step (buf : list Z) (charsWritten dist : Z) :
  uintToStr_digits buf charsWritten dist
  = (let? buf' := store buf charsWritten (to_char (48 + dist mod 10)) in
     if Z_gt_dec (dist / 10) 0
     then uintToStr_digits buf' (to_uint8 (charsWritten + 1)) (dist / 10)
     else Some (buf', to_uint8 (charsWritten + 1), dist / 10)).
Proof.
  rewrite uintToStr_digits_equation_1.
  destruct (store buf charsWritten (to_char (48 + dist mod 10)));
    [|reflexivity].
  cbn. destruct (Z_gt_dec (dist / 10) 0); reflexivity.
Qed.

Lemma uintToStr_reverse_step (buf : list Z) (i j : Z) :
  uintToStr_reverse buf i j
  = (if Z_lt_dec i j
     then let? buf' := uintToStr_swap buf i j in
          uintToStr_reverse buf' (i + 1) (j - 1)
     else Some (buf, i, j)).
Proof.
  rewrite uintToStr_reverse_equation_1.
  destruct (Z_lt_dec i j); [|reflexivity].
  cbn. destruct (uintToStr_swap buf i j); reflexivity.
Qed.

(** A loop that finishes within [n] rounds is the loop. *)
Lemma digits_within_sound (n : nat) :
  forall buf charsWritten dist r,
    digits_within n buf charsWritten dist = Some r ->
    uintToStr_digits buf charsWritten dist = Some r.
Proof.
  induction n as [|n IH]; intros buf cw d r H; [discriminate|].
  rewrite uintToStr_digits_step. cbn [digits_within] in H.
  destruct (store buf cw (to_char (48 + d mod 10))); [|discriminate].
  destruct (Z_gt_dec (d / 10) 0); [apply IH|]; exact H.
Qed.

Lemma reverse_within_sound (n : nat) :
  forall buf i j r,
    reverse_within n buf i j = Some r ->
    uintToStr_reverse buf i j = Some r.
Proof.
  induction n as [|n IH]; intros buf i j r H;
    rewrite uintToStr_reverse_step; cbn [reverse_within] in H;
    destruct (Z_lt_dec i j); try discriminate; try exact H.
  destruct (uintToStr_swap buf i j); [apply IH; exact H|discriminate].
Qed.

Lemma store_middle {A : Type} (pre : list A) (a v : A) (post : list A) :
  store (pre ++ a :: post) (Z.of_nat (length pre)) v
  = Some (pre ++ v :: post).
Proof.
  unfold store.
  destruct (Z.ltb_spec (Z.of_nat (length pre)) 0) as [E|E];
    [exfalso; lia|].
  destruct (Z.leb_spec (Z.of_nat (length (pre ++ a :: post)))
              (Z.of_nat (length pre))) as [F|F].
  - exfalso. rewrite length_app in F. cbn [length] in F. lia.
  - cbn [orb]. rewrite Nat2Z.id. f_equal.
    clear E F. induction pre as [|p pre IH]; [reflexivity|].
    cbn [app length update]. rewrite IH. reflexivity.
Qed.

Lemma digit_char (d : Z) :
  0 <= d -> to_char (48 + d mod 10) = 48 + d mod 10 /\
            48 <= 48 + d mod 10 <= 57.
Proof.
  intros H. pose proof (Z.mod_pos_bound d 10 ltac:(lia)).
  unfold to_char. rewrite to_uint8_small by lia. lia.
Qed.

(** The digit loop on a number of [n] digits: [n] rounds, which write the
    digits from the least significant on, leave [dist] at 0 and advance
    [charsWritten] by [n]. *)
Lemma digits_within_spec (n : nat) :
  forall d pre old rest,
    digit_count_is n d ->
    length old = n ->
    Z.of_nat (length pre) + Z.of_nat n < 256 ->
    digits_within n (pre ++ old ++ rest) (Z.of_nat (length pre)) d
    = Some (pre ++ lsb_digits n d ++ rest,
            Z.of_nat (length pre) + Z.of_nat n, 0).
Proof.
  induction n as [|k IH]; intros d pre old rest Hd Hlen Hcap;
    [destruct Hd|].
  destruct old as [|o old]; [discriminate|].
  cbn [length] in Hlen. injection Hlen as Hlen.
  cbn [digit_count_is] in Hd. destruct Hd as [Hrange Hlow].
  destruct (digit_char d ltac:(lia)) as [Hchar _].
  cbn [digits_within lsb_digits app]. rewrite Hchar, store_middle.
  assert (Hnext : to_uint8 (Z.of_nat (length pre) + 1)
                  = Z.of_nat (length (pre ++ [48 + d mod 10]))).
  { rewrite to_uint8_small by lia. rewrite length_app. cbn [length]. lia. }
  rewrite Hnext.
  assert (Hpow : 0 < 10 ^ Z.of_nat k) by (apply Z.pow_pos_nonneg; lia).
  destruct (Z_gt_dec (d / 10) 0) as [G|G].
  - destruct k as [|k].
    + exfalso. change (10 ^ Z.of_nat 0) with 1 in Hrange.
      assert (d / 10 = 0) by (apply Z.div_small; lia). lia.
    + assert (Hk : 10 ^ Z.of_nat (S k) = 10 * 10 ^ Z.of_nat k)
        by (rewrite Nat2Z.inj_succ, Z.pow_succ_r by lia; reflexivity).
      destruct Hlow as [Hlow|Hlow]; [discriminate|].
      rewrite Hk in Hrange, Hlow.
      assert (Hq : digit_count_is (S k) (d / 10)).
      { cbn [digit_count_is]. split; [split|].
        - apply Z.div_pos; lia.
        - apply Z.div_lt_upper_bound; lia.
        - destruct k as [|k]; [left; reflexivity|right].
          apply Z.div_le_lower_bound; [lia|].
          rewrite Nat2Z.inj_succ, Z.pow_succ_r in Hlow |- * by lia. lia. }
      specialize (IH (d / 10) (pre ++ [48 + d mod 10]) old rest Hq Hlen).
      rewrite <- !app_assoc in IH. cbn [app] in IH.
      rewrite IH.
      * rewrite length_app. cbn [length].
        replace (Z.of_nat (length pre + 1) + Z.of_nat (S k))
          with (Z.of_nat (length pre) + Z.of_nat (S (S k))) by lia.
        reflexivity.
      * rewrite length_app. cbn [length]. lia.
  - assert (Hsmall : d < 10).
    { destruct (Z_lt_le_dec d 10) as [L|L]; [exact L|exfalso].
      assert (1 <= d / 10) by (apply Z.div_le_lower_bound; lia). lia. }
    assert (Hzero : d / 10 = 0) by (apply Z.div_small; lia).
    destruct k as [|k].
    + destruct old; [|discriminate].
      rewrite length_app. cbn [length lsb_digits app]. rewrite Hzero.
      replace (Z.of_nat (length pre + 1))
        with (Z.of_nat (length pre) + Z.of_nat 1) by lia.
      reflexivity.
    + exfalso. destruct Hlow as [Hlow|Hlow]; [discriminate|].
      rewrite Nat2Z.inj_succ, Z.pow_succ_r in Hlow by lia.
      assert (0 < 10 ^ Z.of_nat k) by (apply Z.pow_pos_nonneg; lia). lia.
Qed.

Lemma loop_result_eq (buf : list Z) (i i' j j' : Z) :
  i = i' -> j = j' -> Some (buf, i, j) = Some (buf, i', j').
Proof. intros -> ->. reflexivity. Qed.

Lemma uintToStr_swap_ends (pre mid post : list Z) (a b : Z) :
  uintToStr_swap (pre ++ a :: mid ++ b :: post)
    (Z.of_nat (length pre))
    (Z.of_nat (length pre) + Z.of_nat (length mid) + 1)
  = Some (pre ++ b :: mid ++ a :: post).
Proof.
  assert (Hj : Z.of_nat (length pre) + Z.of_nat (length mid) + 1
               = Z.of_nat (length (pre ++ a :: mid))).
  { rewrite length_app. cbn [length]. lia. }
  assert (Hj' : Z.of_nat (length pre) + Z.of_nat (length mid) + 1
                = Z.of_nat (length (pre ++ b :: mid))).
  { rewrite length_app. cbn [length]. lia. }
  unfold uintToStr_swap.
  rewrite load_middle.
  rewrite Hj.
  replace (pre ++ a :: mid ++ b :: post)
    with ((pre ++ a :: mid) ++ b :: post)
    by (rewrite <- app_assoc; reflexivity).
  rewrite load_middle.
  replace ((pre ++ a :: mid) ++ b :: post)
    with (pre ++ a :: mid ++ b :: post)
    by (rewrite <- app_assoc; reflexivity).
  rewrite store_middle.
  rewrite <- Hj, Hj'.
  replace (pre ++ b :: mid ++ b :: post)
    with ((pre ++ b :: mid) ++ b :: post)
    by (rewrite <- app_assoc; reflexivity).
  rewrite store_middle. rewrite <- app_assoc. reflexivity.
Qed.

(** The reversal loop on the part of the buffer between [i] and [j]:
    half as many rounds as that part has characters, after which the part
    is reversed and the rest of the buffer is as before. *)
Lemma reverse_within_spec (n : nat) :
  forall mid pre post,
    (Nat.div2 (length mid) <= n)%nat ->
    reverse_within n (pre ++ mid ++ post)
      (Z.of_nat (length pre))
      (Z.of_nat (length pre) + Z.of_nat (length mid) - 1)
    = Some (pre ++ rev mid ++ post,
            Z.of_nat (length pre) + Z.of_nat (Nat.div2 (length mid)),
            Z.of_nat (length pre) + Z.of_nat (length mid) - 1
            - Z.of_nat (Nat.div2 (length mid))).
Proof.
  assert (Hexit : forall n buf i j, j <= i ->
            reverse_within n buf i j = Some (buf, i, j)).
  { intros k buf i j H.
    destruct k; cbn [reverse_within]; destruct (Z_lt_dec i j);
      try reflexivity; exfalso; lia. }
  induction n as [|n IH]; intros mid pre post Hn.
  - destruct mid as [|a [|b mid]]; cbn [length Nat.div2] in *;
      [| |exfalso; inversion Hn];
      rewrite Hexit by lia; cbn [rev app]; apply loop_result_eq; lia.
  - destruct mid as [|a [|b' mid']].
    + rewrite Hexit by (cbn [length]; lia).
      cbn [rev app length Nat.div2]. apply loop_result_eq; lia.
    + rewrite Hexit by (cbn [length]; lia).
      cbn [rev app length Nat.div2]. apply loop_result_eq; lia.
    + destruct (exists_last (l := b' :: mid') ltac:(discriminate))
        as (mid & b & Hmid).
      rewrite Hmid in *. clear Hmid b' mid'.
      assert (Hlen : length (a :: mid ++ [b]) = S (S (length mid))).
      { cbn [length]. rewrite length_app. cbn [length]. lia. }
      rewrite Hlen in *. cbn [Nat.div2] in *.
      cbn [reverse_within].
      destruct (Z_lt_dec (Z.of_nat (length pre))
                  (Z.of_nat (length pre) + Z.of_nat (S (S (length mid))) - 1))
        as [L|L]; [|exfalso; lia].
      replace (Z.of_nat (length pre) + Z.of_nat (S (S (length mid))) - 1)
        with (Z.of_nat (length pre) + Z.of_nat (length mid) + 1) by lia.
      cbn [app]. rewrite <- app_assoc. cbn [app].
      rewrite uintToStr_swap_ends.
      specialize (IH mid (pre ++ [b]) (a :: post) (le_S_n _ _ Hn)).
      clear Hn. generalize dependent (Nat.div2 (length mid)). intros h IH.
      rewrite <- !app_assoc in IH. cbn [app] in IH.
      rewrite length_app in IH. cbn [length] in IH.
      replace (Z.of_nat (length pre) + 1)
        with (Z.of_nat (length pre + 1)) by lia.
      replace (Z.of_nat (length pre) + Z.of_nat (length mid) + 1 - 1)
        with (Z.of_nat (length pre + 1) + Z.of_nat (length mid) - 1) by lia.
      rewrite IH.
      cbn [rev]. rewrite rev_app_distr. cbn [rev app]. rewrite <- !app_assoc.
      cbn [app].
      apply loop_result_eq; lia.
Qed.

(** ** Readout formatter: decimal digits *)

Lemma lsb_digits_length (n : nat) :
  forall d, length (lsb_digits n d) = n.
Proof.
  induction n as [|n IH]; intros d; [reflexivity|].
  cbn [lsb_digits length]. rewrite IH. reflexivity.
Qed.

Lemma digit_count_is_div (k : nat) (d : Z) :
  digit_count_is (S (S k)) d ->
  digit_count_is (S k) (d / 10) /\ 1 <= d / 10.
Proof.
  cbn [digit_count_is]. intros [Hrange [Hlow|Hlow]]; [discriminate|].
  rewrite Nat2Z.inj_succ, Z.pow_succ_r in Hrange, Hlow by lia.
  assert (Hpow : 0 < 10 ^ Z.of_nat k) by (apply Z.pow_pos_nonneg; lia).
  split; [split; [split|]|].
  - apply Z.div_pos; lia.
  - apply Z.div_lt_upper_bound; lia.
  - destruct k as [|k]; [left; reflexivity|right].
    apply Z.div_le_lower_bound; [lia|].
    rewrite Nat2Z.inj_succ, Z.pow_succ_r in Hlow |- * by lia. lia.
  - apply Z.div_le_lower_bound; lia.
Qed.

Lemma digit_count_is_range (n : nat) (d : Z) :
  digit_count_is n d -> 0 <= d < 10 ^ Z.of_nat n.
Proof.
  destruct n as [|k]; [intros []|]. cbn [digit_count_is].
  rewrite Nat2Z.inj_succ, Z.pow_succ_r by lia. tauto.
Qed.

(** Every [uint16_t] has between 1 and 5 decimal digits. *)
Lemma uint16_digit_count (d : Z) :
  0 <= d < 65536 -> exists n, (1 <= n <= 5)%nat /\ digit_count_is n d.
Proof.
  intros H.
  destruct (Z_lt_le_dec d 10); [exists 1%nat|
  destruct (Z_lt_le_dec d 100); [exists 2%nat|
  destruct (Z_lt_le_dec d 1000); [exists 3%nat|
  destruct (Z_lt_le_dec d 10000); [exists 4%nat|exists 5%nat]]]];
    (split; [lia|]); cbn [digit_count_is].
  - change (10 ^ Z.of_nat 0) with 1. split; [lia|left; reflexivity].
  - change (10 ^ Z.of_nat 1) with 10. split; [lia|right; lia].
  - change (10 ^ Z.of_nat 2) with 100. split; [lia|right; lia].
  - change (10 ^ Z.of_nat 3) with 1000. split; [lia|right; lia].
  - change (10 ^ Z.of_nat 4) with 10000. split; [lia|right; lia].
Qed.

Lemma parse_decimal_from_snoc (s : list Z) (c : Z) :
  forall acc,
    parse_decimal_from acc (s ++ [c])
    = (let? hi := parse_decimal_from acc s in
       let? lo := digit_value c in Some (10 * hi + lo)).
Proof.
  induction s as [|a s IH]; intros acc; cbn [app parse_decimal_from].
  - destruct (digit_value c); reflexivity.
  - destruct (digit_value a); [apply IH|reflexivity].
Qed.

Lemma digit_value_char (d : Z) :
  0 <= d -> digit_value (48 + d mod 10) = Some (d mod 10).
Proof.
  intros H. destruct (digit_char d H) as [_ Hc]. unfold digit_value.
  destruct (Z.leb_spec 48 (48 + d mod 10)); [|exfalso; lia].
  destruct (Z.leb_spec (48 + d mod 10) 57); [|exfalso; lia].
  cbn [andb]. f_equal. lia.
Qed.

(** The digits written, read from the most significant one, denote the
    number. *)
Lemma parse_rev_lsb_digits (n : nat) :
  forall d,
    0 <= d < 10 ^ Z.of_nat n ->
    parse_decimal_from 0 (rev (lsb_digits n d)) = Some d.
Proof.
  induction n as [|n IH]; intros d H.
  - change (10 ^ Z.of_nat 0) with 1 in H. cbn. f_equal. lia.
  - rewrite Nat2Z.inj_succ, Z.pow_succ_r in H by lia.
    cbn [lsb_digits rev]. rewrite parse_decimal_from_snoc, IH.
    + rewrite digit_value_char by lia. f_equal.
      pose proof (Z.div_mod d 10 ltac:(lia)). lia.
    + split; [apply Z.div_pos; lia|apply Z.div_lt_upper_bound; lia].
Qed.

(** The most significant digit of a positive number is not a zero. *)
Lemma leading_digit (n : nat) :
  forall d,
    digit_count_is n d -> 1 <= d ->
    exists c rest, rev (lsb_digits n d) = c :: rest /\ 49 <= c <= 57.
Proof.
  induction n as [|k IH]; intros d Hd Hpos; [destruct Hd|].
  cbn [lsb_digits rev]. destruct k as [|k].
  - cbn [digit_count_is] in Hd. change (10 ^ Z.of_nat 0) with 1 in Hd.
    exists (48 + d mod 10), []. split; [reflexivity|].
    rewrite Z.mod_small by lia. lia.
  - destruct (digit_count_is_div k d Hd) as [Hq Hq1].
    destruct (IH (d / 10) Hq Hq1) as (c & rest & Hrev & Hc).
    rewrite Hrev. exists c, (rest ++ [48 + d mod 10]).
    split; [reflexivity|exact Hc].
Qed.

(** What [uintToStr] does to a buffer that has room for the digits. *)
Lemma uintToStr_loops (buf : list Z) (d : Z) (n : nat) :
  digit_count_is n d ->
  (n <= length buf)%nat ->
  (n < 256)%nat ->
  digits_within n buf 0 d
  = Some (lsb_digits n d ++ skipn n buf, Z.of_nat n, 0) /\
  reverse_within (Nat.div2 n) (lsb_digits n d ++ skipn n buf)
    0 (Z.of_nat n - 1)
  = Some (rev (lsb_digits n d) ++ skipn n buf,
          Z.of_nat (Nat.div2 n), Z.of_nat n - 1 - Z.of_nat (Nat.div2 n)) /\
  uintToStr buf d = Some (rev (lsb_digits n d) ++ skipn n buf, Z.of_nat n).
Proof.
  intros Hd Hcap Hn.
  assert (Hdigits : digits_within n buf 0 d
                    = Some (lsb_digits n d ++ skipn n buf, Z.of_nat n, 0)).
  { pose proof (digits_within_spec n d [] (firstn n buf) (skipn n buf) Hd)
      as H.
    cbn [app length] in H. rewrite firstn_skipn in H.
    change (Z.of_nat 0) with 0 in H. rewrite Z.add_0_l in H.
    apply H; [rewrite length_firstn; lia | lia]. }
  assert (Hreverse :
    reverse_within (Nat.div2 n) (lsb_digits n d ++ skipn n buf)
      0 (Z.of_nat n - 1)
    = Some (rev (lsb_digits n d) ++ skipn n buf,
            Z.of_nat (Nat.div2 n),
            Z.of_nat n - 1 - Z.of_nat (Nat.div2 n))).
  { pose proof (reverse_within_spec (Nat.div2 n) (lsb_digits n d) []
                  (skipn n buf)) as H.
    rewrite lsb_digits_length in H. cbn [app length] in H.
    change (Z.of_nat 0) with 0 in H. rewrite !Z.add_0_l in H.
    apply H. apply le_n. }
  split; [exact Hdigits|]. split; [exact Hreverse|].
  unfold uintToStr.
  rewrite (digits_within_sound _ _ _ _ _ Hdigits).
  rewrite (reverse_within_sound _ _ _ _ _ Hreverse).
  reflexivity.
Qed.

Lemma digits_within_mono (n : nat) :
  forall m buf charsWritten dist r,
    (n <= m)%nat ->
    digits_within n buf charsWritten dist = Some r ->
    digits_within m buf charsWritten dist = Some r.
Proof.
  induction n as [|n IH]; intros m buf cw d r Hle H; [discriminate|].
  destruct m as [|m]; [exfalso; inversion Hle|].
  cbn [digits_within] in *.
  destruct (store buf cw (to_char (48 + d mod 10))); [|discriminate].
  destruct (Z_gt_dec (d / 10) 0); [|exact H].
  apply (IH m); [apply le_S_n; exact Hle | exact H].
Qed.

Lemma reverse_within_mono (n : nat) :
  forall m buf i j r,
    (n <= m)%nat ->
    reverse_within n buf i j = Some r ->
    reverse_within m buf i j = Some r.
Proof.
  induction n as [|n IH]; intros m buf i j r Hle H.
  - cbn [reverse_within] in H.
    destruct (Z_lt_dec i j) as [L|L]; [discriminate|].
    destruct m; cbn [reverse_within]; destruct (Z_lt_dec i j);
      try exact H; contradiction.
  - destruct m as [|m]; [exfalso; inversion Hle|].
    cbn [reverse_within] in *.
    destruct (Z_lt_dec i j); [|exact H].
    destruct (uintToStr_swap buf i j); [|discriminate].
    apply (IH m); [apply le_S_n; exact Hle | exact H].
Qed.

Lemma firstn_exact {A : Type} (l rest : list A) (n : nat) :
  length l = n -> firstn n (l ++ rest) = l.
Proof.
  intros H. rewrite firstn_app, H, Nat.sub_diag.
  rewrite firstn_all2 by (rewrite H; apply le_n).
  cbn [firstn]. apply app_nil_r.
Qed.

Lemma parse_decimal_digits (n : nat) (d : Z) (rest : list Z) :
  digit_count_is n d ->
  parse_decimal (firstn n (rev (lsb_digits n d) ++ rest)) = Some d.
Proof.
  intros Hd.
  assert (Hlen : length (rev (lsb_digits n d)) = n)
    by (rewrite length_rev; apply lsb_digits_length).
  rewrite firstn_exact by exact Hlen.
  pose proof (parse_rev_lsb_digits n d (digit_count_is_range n d Hd)) as Hp.
  destruct (rev (lsb_digits n d)) as [|c s] eqn:E; [|exact Hp].
  destruct n; [destruct Hd|discriminate].
Qed.

(** C2. uintToStr(0) writes the single character 0 and returns 1,
    uintToStr(4500) writes 4500 and returns 4, and for every v in
    [0, 65535] the charsWritten characters that uintToStr wrote, read as a
    decimal numeral, give v back. *)
Theorem uintToStr_round_trip (buf : list Z) :
  ((1 <= length buf)%nat ->
   exists buf', uintToStr buf 0 = Some (buf', 1) /\
                firstn 1 buf' = chars "0") /\
  ((4 <= length buf)%nat ->
   exists buf', uintToStr buf 4500 = Some (buf', 4) /\
                firstn 4 buf' = chars "4500") /\
  ((5 <= length buf)%nat ->
   forall v, 0 <= v <= 65535 ->
     exists buf' charsWritten,
       uintToStr buf v = Some (buf', charsWritten) /\
       parse_decimal (firstn (Z.to_nat charsWritten) buf') = Some v).
Proof.
  split; [|split].
  - intros Hcap.
    assert (Hd : digit_count_is 1 0).
    { cbn [digit_count_is]. change (10 ^ Z.of_nat 0) with 1.
      split; [lia|left; reflexivity]. }
    destruct (uintToStr_loops buf 0 1 Hd Hcap ltac:(lia)) as (_ & _ & H).
    eexists. split; [exact H|reflexivity].
  - intros Hcap.
    assert (Hd : digit_count_is 4 4500).
    { cbn [digit_count_is]. change (10 ^ Z.of_nat 3) with 1000.
      split; [lia|right; lia]. }
    destruct (uintToStr_loops buf 4500 4 Hd Hcap ltac:(lia)) as (_ & _ & H).
    eexists. split; [exact H|reflexivity].
  - intros Hcap v Hv.
    destruct (uint16_digit_count v ltac:(lia)) as (n & Hn & Hd).
    destruct (uintToStr_loops buf v n Hd ltac:(lia) ltac:(lia))
      as (_ & _ & H).
    eexists. eexists. split; [exact H|].
    rewrite Nat2Z.id. apply parse_decimal_digits. exact Hd.
Qed.

Lemma uintToStr_round_trip_witness :
  (exists buf', uintToStr (repeat 0 32) 0 = Some (buf', 1) /\
                firstn 1 buf' = chars "0") /\
  (exists buf', uintToStr (repeat 0 32) 4500 = Some (buf', 4) /\
                firstn 4 buf' = chars "4500") /\
  (exists buf' charsWritten,
     uintToStr (repeat 0 32) 65535 = Some (buf', charsWritten) /\
     parse_decimal (firstn (Z.to_nat charsWritten) buf') = Some 65535).
Proof.
  destruct (uintToStr_round_trip (repeat 0 32)) as (A & B & C).
  split; [|split].
  - apply A. cbn [length repeat]. lia.
  - apply B. cbn [length repeat]. lia.
  - apply C; [cbn [length repeat]; lia | lia].
Defined.

(** C9. For v in [1, 65535] the text uintToStr writes starts with a digit
    other than 0, and over the whole uint16_t range the returned length is
    between 1 and 5: in the 32-character arrays of the callers the digits
    leave room for a unit suffix of up to 27 characters. *)
Theorem uintToStr_no_leading_zero (buf : list Z) (v : Z) :
  (5 <= length buf)%nat ->
  0 <= v <= 65535 ->
  exists buf' charsWritten,
    uintToStr buf v = Some (buf', charsWritten) /\
    1 <= charsWritten <= 5 /\
    charsWritten + 27 <= 32 /\
    (1 <= v -> exists c, load buf' 0 = Some c /\ 49 <= c <= 57).
Proof.
  intros Hcap Hv.
  destruct (uint16_digit_count v ltac:(lia)) as (n & Hn & Hd).
  destruct (uintToStr_loops buf v n Hd ltac:(lia) ltac:(lia)) as (_ & _ & H).
  eexists. eexists. split; [exact H|].
  split; [lia|]. split; [lia|].
  intros Hpos.
  destruct (leading_digit n v Hd Hpos) as (c & rest & Hrev & Hc).
  exists c. rewrite Hrev. split; [reflexivity|exact Hc].
Qed.

Lemma uintToStr_no_leading_zero_witness :
  exists buf' charsWritten,
    uintToStr (repeat 48 32) 1000 = Some (buf', charsWritten) /\
    1 <= charsWritten <= 5 /\
    charsWritten + 27 <= 32 /\
    (1 <= 1000 -> exists c, load buf' 0 = Some c /\ 49 <= c <= 57).
Proof.
  apply (uintToStr_no_leading_zero (repeat 48 32) 1000).
  - cbn [length repeat]. lia.
  - lia.
Defined.

(** C10. uintToStr terminates on every uint16_t: the digit loop is over
    within 5 rounds, the working value going down at each division by 10
    until it is 0, the reversal loop is over within floor(charsWritten / 2)
    rounds, and the function returns. *)
Theorem uintToStr_terminates (buf : list Z) (v : Z) :
  (5 <= length buf)%nat ->
  0 <= v <= 65535 ->
  (forall d, 0 < d -> 0 <= d / 10 < d) /\
  exists buf1 buf2 charsWritten i j,
    digits_within 5 buf 0 v = Some (buf1, charsWritten, 0) /\
    uintToStr_digits buf 0 v = Some (buf1, charsWritten, 0) /\
    1 <= charsWritten <= 5 /\
    reverse_within (Z.to_nat (charsWritten / 2)) buf1 0 (charsWritten - 1)
    = Some (buf2, i, j) /\
    uintToStr_reverse buf1 0 (charsWritten - 1) = Some (buf2, i, j) /\
    i = charsWritten / 2 /\
    uintToStr buf v = Some (buf2, charsWritten).
Proof.
  intros Hcap Hv. split.
  { intros d Hd. split; [apply Z.div_pos; lia|apply Z.div_lt; lia]. }
  destruct (uint16_digit_count v ltac:(lia)) as (n & Hn & Hd).
  destruct (uintToStr_loops buf v n Hd ltac:(lia) ltac:(lia))
    as (Hdigits & Hreverse & H).
  assert (Hhalf : Z.of_nat n / 2 = Z.of_nat (Nat.div2 n)).
  { destruct n as [|[|[|[|[|[|n]]]]]]; try reflexivity; exfalso; lia. }
  do 5 eexists.
  split; [apply (digits_within_mono n); [lia|exact Hdigits]|].
  split; [apply (digits_within_sound n); exact Hdigits|].
  split; [lia|].
  rewrite Hhalf, Nat2Z.id.
  split; [exact Hreverse|].
  split; [apply (reverse_within_sound (Nat.div2 n)); exact Hreverse|].
  split; [reflexivity|exact H].
Qed.

Lemma uintToStr_terminates_witness :
  exists buf1 buf2 charsWritten i j,
    digits_within 5 (repeat 0 32) 0 65535 = Some (buf1, charsWritten, 0) /\
    uintToStr_digits (repeat 0 32) 0 65535 = Some (buf1, charsWritten, 0) /\
    1 <= charsWritten <= 5 /\
    reverse_within (Z.to_nat (charsWritten / 2)) buf1 0 (charsWritten - 1)
    = Some (buf2, i, j) /\
    uintToStr_reverse buf1 0 (charsWritten - 1) = Some (buf2, i, j) /\
    i = charsWritten / 2 /\
    uintToStr (repeat 0 32) 65535 = Some (buf2, charsWritten).
Proof.
  apply (uintToStr_terminates (repeat 0 32) 65535).
  - cbn [length repeat]. lia.
  - lia.
Defined.

(** ** Readouts *)

Lemma row_cleared_and_addressed (y : Z) :
  0 <= y <= 5 ->
  LCD_ClearRow y 0 = Some (tt, Command (Z.lor 0x40 y) :: Command 0x80
                               :: repeat (Data 0) 84) /\
  LCD_SetY y = Some (tt, [Command (Z.lor 0x40 y)]).
Proof.
  intros H. split; [|apply LCD_SetY_in_range; exact H].
  rewrite (LCD_ClearRow_unfold y 0 [Command (Z.lor 0x40 y)]
             [Command (Z.lor 0x80 0)]).
  - reflexivity.
  - apply LCD_SetY_in_range; exact H.
  - apply LCD_SetX_in_range; lia.
Qed.

Section ReadoutProperties.

Variable tbl : list (list Z).
Hypothesis tbl_ok : table_ok tbl = true.

(** A text of at most 12 in-range characters fits the display, and is
    centered from wherever it is stored. *)
Lemma LCD_PrintStringCentered_short (str text : list Z) (sz : Z) :
  0 <= sz <= 12 ->
  sz <= Z.of_nat (length str) ->
  firstn (Z.to_nat sz) str = text ->
  forallb (in_range tbl) text = true ->
  LCD_PrintStringCentered tbl str sz
  = Some (tt, Command (Z.lor 0x80 ((84 - rendered_width tbl text) / 2))
              :: text_frames tbl text) /\
  5 * sz <= Z.of_nat (length (text_frames tbl text)) <= 7 * sz.
Proof.
  intros Hsz Hlen Htext Hr.
  assert (Z.of_nat (length text) = sz)
    by (rewrite <- Htext, length_firstn; lia).
  pose proof (rendered_width_bounds tbl text) as Hb.
  split.
  - rewrite LCD_PrintStringCentered_layout; rewrite ?Htext;
      try assumption; [reflexivity | lia | lia].
  - rewrite text_frames_length by assumption. lia.
Qed.

Lemma LCD_PrintMeasurement_out_of_range (stack : indeterminate)
    (dist : Z) (units : list Z) (units_sz : Z) :
  4500 < dist ->
  LCD_PrintMeasurement tbl stack dist units units_sz
  = (LCD_ClearRow 2 0 ;; LCD_SetY 2 ;;
     LCD_PrintStringCentered tbl (literal "OUT OF RANGE") 12).
Proof.
  intros H. unfold LCD_PrintMeasurement.
  destruct (Z.gtb_spec dist 4500) as [G|G]; [reflexivity|exfalso; lia].
Qed.

Lemma LCD_PrintMeasurement_4500mm (stack : indeterminate) :
  LCD_PrintMeasurement tbl stack 4500 (literal "mm") 2
  = (LCD_ClearRow 2 0 ;; LCD_SetY 2 ;;
     LCD_PrintStringCentered tbl
       (chars "4500mm" ++ skipn 6 (auto_array 32 stack)) 6).
Proof.
  unfold LCD_PrintMeasurement.
  generalize (LCD_PrintStringCentered tbl). intros psc.
  vm_compute.
  match goal with
  | |- context [psc ?str ?sz] => destruct (psc str sz) as [[u tr]|]
  end; reflexivity.
Qed.

Lemma LCD_PrintTempMeasurement_20C_200F (stack stack2 : indeterminate) :
  LCD_PrintTempMeasurement tbl stack stack2
    20 (literal "C") 1 200 (literal "F") 1
  = (LCD_ClearRow 4 0 ;; LCD_SetY 4 ;;
     LCD_PrintStringCentered tbl (chars "20C 200F" ++ repeat 0 56) 8).
Proof.
  unfold LCD_PrintTempMeasurement.
  generalize (LCD_PrintStringCentered tbl). intros psc.
  vm_compute.
  match goal with
  | |- context [psc ?str ?sz] => destruct (psc str sz) as [[u tr]|]
  end; reflexivity.
Qed.

End ReadoutProperties.

(** C5. With a value above 4500 LCD_PrintMeasurement sends the centered
    text OUT OF RANGE whatever the unit is, and with the value 4500 and the
    unit mm it sends the centered text 4500mm: in both cases row 2 is first
    cleared from column 0 and addressed, then the column command for
    floor((84 - w) / 2) and the glyph columns of the text follow. *)
Theorem LCD_PrintMeasurement_range_gate (tbl : list (list Z))
    (stack : indeterminate) :
  table_ok tbl = true ->
  forallb (in_range tbl) (chars "OUT OF RANGE" ++ chars "4500mm") = true ->
  let row := Command 0x42 :: Command 0x80 :: repeat (Data 0x00) 84 in
  let centered text :=
    Command (Z.lor 0x80 ((84 - rendered_width tbl text) / 2))
    :: text_frames tbl text in
  LCD_ClearRow 2 0 = Some (tt, row) /\
  LCD_SetY 2 = Some (tt, [Command 0x42]) /\
  LCD_PrintStringCentered tbl (chars "OUT OF RANGE") 12
  = Some (tt, centered (chars "OUT OF RANGE")) /\
  LCD_PrintStringCentered tbl (chars "4500mm") 6
  = Some (tt, centered (chars "4500mm")) /\
  Z.of_nat (length (text_frames tbl (chars "OUT OF RANGE")))
  = rendered_width tbl (chars "OUT OF RANGE") /\
  Z.of_nat (length (text_frames tbl (chars "4500mm")))
  = rendered_width tbl (chars "4500mm") /\
  (forall dist units units_sz,
     4500 < dist ->
     LCD_PrintMeasurement tbl stack dist units units_sz
     = Some (tt, row ++ [Command 0x42] ++ centered (chars "OUT OF RANGE")))
  /\
  LCD_PrintMeasurement tbl stack 4500 (literal "mm") 2
  = Some (tt, row ++ [Command 0x42] ++ centered (chars "4500mm")).
Proof.
  intros Hok Hr row centered. rewrite forallb_app in Hr.
  apply andb_true_iff in Hr. destruct Hr as [Hoor Hval].
  destruct (row_cleared_and_addressed 2 ltac:(lia)) as [Hclear Haddr].
  destruct (LCD_PrintStringCentered_short tbl Hok
              (chars "OUT OF RANGE") (chars "OUT OF RANGE") 12
              ltac:(lia) ltac:(cbn; lia) eq_refl Hoor) as [Hc1 _].
  destruct (LCD_PrintStringCentered_short tbl Hok
              (literal "OUT OF RANGE") (chars "OUT OF RANGE") 12
              ltac:(lia) ltac:(cbn; lia) eq_refl Hoor) as [Hc2 _].
  destruct (LCD_PrintStringCentered_short tbl Hok
              (chars "4500mm") (chars "4500mm") 6
              ltac:(lia) ltac:(cbn; lia) eq_refl Hval) as [Hc3 _].
  destruct (LCD_PrintStringCentered_short tbl Hok
              (chars "4500mm" ++ skipn 6 (auto_array 32 stack))
              (chars "4500mm") 6
              ltac:(lia) ltac:(cbn; lia) eq_refl Hval) as [Hc4 _].
  split; [exact Hclear|]. split; [exact Haddr|].
  split; [exact Hc1|]. split; [exact Hc3|].
  split; [apply text_frames_length; assumption|].
  split; [apply text_frames_length; assumption|].
  split.
  - intros dist units units_sz Hd.
    rewrite LCD_PrintMeasurement_out_of_range by exact Hd.
    rewrite Hclear, Haddr, Hc2. reflexivity.
  - rewrite LCD_PrintMeasurement_4500mm.
    rewrite Hclear, Haddr, Hc4. reflexivity.
Qed.

Lemma LCD_PrintMeasurement_range_gate_witness :
  LCD_PrintMeasurement classic_font (fun _ => 0) 4501 (literal "mm") 2
  = Some (tt, (Command 0x42 :: Command 0x80 :: repeat (Data 0x00) 84)
              ++ [Command 0x42]
              ++ Command 0x82
                 :: text_frames classic_font (chars "OUT OF RANGE")) /\
  LCD_PrintMeasurement classic_font (fun _ => 0) 4500 (literal "mm") 2
  = Some (tt, (Command 0x42 :: Command 0x80 :: repeat (Data 0x00) 84)
              ++ [Command 0x42]
              ++ Command 0x95
                 :: text_frames classic_font (chars "4500mm")).
Proof.
  destruct (LCD_PrintMeasurement_range_gate classic_font (fun _ => 0)
              eq_refl eq_refl)
    as (_ & _ & _ & _ & _ & _ & Hgate & Hval).
  split; [|exact Hval].
  apply (Hgate 4501 (literal "mm") 2). lia.
Defined.

(** C1. LCD_PrintTempMeasurement tests only its first value against the
    ceiling of 158: with 20 as first and 200 as second value it sends the
    composite line 20C 200F, which is not the OUT OF RANGE line. *)
Theorem LCD_PrintTempMeasurement_second_value_unchecked
    (tbl : list (list Z)) (stack stack2 : indeterminate) :
  table_ok tbl = true ->
  forallb (in_range tbl) (chars "OUT OF RANGE" ++ chars "20C 200F") = true ->
  exists fallback composite,
    LCD_PrintStringCentered tbl (literal "OUT OF RANGE") 12
    = Some (tt, fallback) /\
    LCD_PrintStringCentered tbl (chars "20C 200F") 8
    = Some (tt, composite) /\
    LCD_PrintTempMeasurement tbl stack stack2
      20 (literal "C") 1 200 (literal "F") 1
    = Some (tt, (Command 0x44 :: Command 0x80 :: repeat (Data 0x00) 84)
                ++ [Command 0x44] ++ composite) /\
    composite <> fallback.
Proof.
  intros Hok Hr. rewrite forallb_app in Hr.
  apply andb_true_iff in Hr. destruct Hr as [Hoor Hval].
  destruct (row_cleared_and_addressed 4 ltac:(lia)) as [Hclear Haddr].
  destruct (LCD_PrintStringCentered_short tbl Hok
              (literal "OUT OF RANGE") (chars "OUT OF RANGE") 12
              ltac:(lia) ltac:(cbn; lia) eq_refl Hoor) as [Hc1 Hl1].
  destruct (LCD_PrintStringCentered_short tbl Hok
              (chars "20C 200F") (chars "20C 200F") 8
              ltac:(lia) ltac:(cbn; lia) eq_refl Hval) as [Hc2 Hl2].
  destruct (LCD_PrintStringCentered_short tbl Hok
              (chars "20C 200F" ++ repeat 0 56) (chars "20C 200F") 8
              ltac:(lia) ltac:(cbn; lia) eq_refl Hval) as [Hc3 _].
  do 2 eexists.
  split; [exact Hc1|]. split; [exact Hc2|]. split.
  - rewrite LCD_PrintTempMeasurement_20C_200F.
    rewrite Hclear, Haddr, Hc3. reflexivity.
  - intros E. apply (f_equal (@length frame)) in E.
    cbn [length] in E. lia.
Qed.

Lemma LCD_PrintTempMeasurement_second_value_unchecked_witness :
  exists fallback composite,
    LCD_PrintStringCentered classic_font (literal "OUT OF RANGE") 12
    = Some (tt, fallback) /\
    LCD_PrintTempMeasurement classic_font (fun _ => 0) (fun _ => 0)
      20 (literal "C") 1 200 (literal "F") 1
    = Some (tt, (Command 0x44 :: Command 0x80 :: repeat (Data 0x00) 84)
                ++ [Command 0x44] ++ composite) /\
    composite <> fallback.
Proof.
  destruct (LCD_PrintTempMeasurement_second_value_unchecked classic_font
              (fun _ => 0) (fun _ => 0) eq_refl eq_refl)
    as (fallback & composite & Hf & _ & Hc & Hne).
  exists fallback, composite.
  split; [exact Hf|]. split; [exact Hc|exact Hne].
Defined.

(** * Further properties of the driver *)

(** ** uintToStr on the whole buffer *)

Lemma uint16_digits_count (v : Z) :
  0 <= v < 65536 ->
  digit_count_is (uint16_digits v) v /\ (1 <= uint16_digits v <= 5)%nat.
Proof.
  intros H. unfold uint16_digits.
  destruct (Z.ltb_spec v 10); [|destruct (Z.ltb_spec v 100);
    [|destruct (Z.ltb_spec v 1000); [|destruct (Z.ltb_spec v 10000)]]];
    (split; [|lia]); cbn [digit_count_is].
  - change (10 ^ Z.of_nat 0) with 1. split; [lia|left; reflexivity].
  - change (10 ^ Z.of_nat 1) with 10. split; [lia|right; lia].
  - change (10 ^ Z.of_nat 2) with 100. split; [lia|right; lia].
  - change (10 ^ Z.of_nat 3) with 1000. split; [lia|right; lia].
  - change (10 ^ Z.of_nat 4) with 10000. split; [lia|right; lia].
Qed.

Lemma uintToStr_decimal_text (buf : list Z) (v : Z) :
  0 <= v < 65536 ->
  (uint16_digits v <= length buf)%nat ->
  uintToStr buf v
  = Some (decimal_text v ++ skipn (uint16_digits v) buf,
          Z.of_nat (uint16_digits v)).
Proof.
  intros Hv Hcap. destruct (uint16_digits_count v Hv) as [Hd Hn].
  destruct (uintToStr_loops buf v _ Hd Hcap ltac:(lia)) as (_ & _ & H).
  exact H.
Qed.

Lemma decimal_text_length (v : Z) :
  length (decimal_text v) = uint16_digits v.
Proof.
  unfold decimal_text. rewrite length_rev. apply lsb_digits_length.
Qed.

Lemma lsb_digits_are_digits (n : nat) :
  forall d, 0 <= d -> Forall (fun c => 48 <= c <= 57) (lsb_digits n d).
Proof.
  induction n as [|n IH]; intros d Hd; cbn [lsb_digits]; constructor.
  - destruct (digit_char d Hd) as [_ H]. exact H.
  - apply IH. apply Z.div_pos; lia.
Qed.

Lemma decimal_text_digits (v : Z) :
  0 <= v -> Forall (fun c => 48 <= c <= 57) (decimal_text v).
Proof.
  intros H. unfold decimal_text. apply Forall_rev.
  apply lsb_digits_are_digits. exact H.
Qed.

Lemma skipn_exact {A : Type} (l rest : list A) (n : nat) :
  length l = n -> skipn n (l ++ rest) = rest.
Proof.
  intros H. rewrite skipn_app, H, Nat.sub_diag.
  rewrite skipn_all2 by (rewrite H; apply le_n). reflexivity.
Qed.

(** uintToStr writes nothing but decimal digits, exactly as many as the
    number has, and touches no character behind them: the buffer keeps its
    size and its contents from charsWritten on. *)
Theorem uintToStr_buffer_frame (buf : list Z) (v : Z) :
  (5 <= length buf)%nat ->
  0 <= v <= 65535 ->
  exists buf' n,
    uintToStr buf v = Some (buf', Z.of_nat n) /\
    length buf' = length buf /\
    skipn n buf' = skipn n buf /\
    Forall (fun c => 48 <= c <= 57) (firstn n buf') /\
    v < 10 ^ Z.of_nat n /\
    (n = 1%nat \/ 10 ^ (Z.of_nat n - 1) <= v).
Proof.
  intros Hcap Hv.
  destruct (uint16_digits_count v ltac:(lia)) as [Hd Hn].
  pose proof (decimal_text_length v) as Hlen.
  exists (decimal_text v ++ skipn (uint16_digits v) buf), (uint16_digits v).
  split; [apply uintToStr_decimal_text; lia|].
  split; [|split; [|split; [|split]]].
  - rewrite length_app, length_skipn, Hlen. lia.
  - apply skipn_exact. exact Hlen.
  - rewrite firstn_exact by exact Hlen. apply decimal_text_digits. lia.
  - apply (digit_count_is_range _ _ Hd).
  - destruct (uint16_digits v) as [|k]; [destruct Hd|].
    cbn [digit_count_is] in Hd. destruct Hd as [_ [Hk|Hk]].
    + left. rewrite Hk. reflexivity.
    + right. replace (Z.of_nat (S k) - 1) with (Z.of_nat k) by lia.
      exact Hk.
Qed.

Lemma uintToStr_buffer_frame_witness :
  exists buf' n,
    uintToStr (repeat 7 32) 158 = Some (buf', Z.of_nat n) /\
    length buf' = 32%nat /\
    skipn n buf' = skipn n (repeat 7 32) /\
    Forall (fun c => 48 <= c <= 57) (firstn n buf') /\
    158 < 10 ^ Z.of_nat n /\
    (n = 1%nat \/ 10 ^ (Z.of_nat n - 1) <= 158).
Proof.
  apply (uintToStr_buffer_frame (repeat 7 32) 158).
  - cbn [length repeat]. lia.
  - lia.
Defined.

(** ** Address bytes *)

Lemma column_byte_sum (x : Z) : 0 <= x <= 83 -> Z.lor 0x80 x = 128 + x.
Proof.
  intros H. apply Z.eqb_eq.
  apply (below_forallb (fun x => Z.lor 0x80 x =? 128 + x) 84);
    [vm_compute; reflexivity | lia].
Qed.

Lemma row_byte_sum (y : Z) : 0 <= y <= 5 -> Z.lor 0x40 y = 64 + y.
Proof.
  intros H. apply Z.eqb_eq.
  apply (below_forallb (fun y => Z.lor 0x40 y =? 64 + y) 6);
    [vm_compute; reflexivity | lia].
Qed.

Lemma single_command_inj (a b : Z) :
  Some (tt, [Command a]) = Some (tt, [Command b]) -> a = b.
Proof. intros E. congruence. Qed.

(** The address bytes can be told apart and decoded: a column command is
    128 + x (0x80 to 0xd3), a row command is 64 + y (0x40 to 0x45), so no
    column command is a row command and different in-range coordinates give
    different bytes. *)
Theorem address_commands_decode (x x' y y' : Z) :
  0 <= x <= 83 -> 0 <= x' <= 83 -> 0 <= y <= 5 -> 0 <= y' <= 5 ->
  LCD_SetX x = Some (tt, [Command (128 + x)]) /\
  LCD_SetY y = Some (tt, [Command (64 + y)]) /\
  LCD_SetX x <> LCD_SetY y /\
  (LCD_SetX x = LCD_SetX x' -> x = x') /\
  (LCD_SetY y = LCD_SetY y' -> y = y').
Proof.
  intros Hx Hx' Hy Hy'.
  rewrite !LCD_SetX_in_range, !LCD_SetY_in_range by assumption.
  rewrite !column_byte_sum, !row_byte_sum by assumption.
  split; [reflexivity|]. split; [reflexivity|].
  split; [|split]; intros E; apply single_command_inj in E; lia.
Qed.

Lemma address_commands_decode_witness :
  LCD_SetX 83 = Some (tt, [Command 211]) /\
  LCD_SetY 5 = Some (tt, [Command 69]) /\
  LCD_SetX 83 <> LCD_SetY 5 /\
  (LCD_SetX 83 = LCD_SetX 0 -> 83 = 0) /\
  (LCD_SetY 5 = LCD_SetY 0 -> 5 = 0).
Proof.
  apply (address_commands_decode 83 0 5 0); lia.
Defined.

(** ** Printing texts *)

Lemma LCD_PrintString_nothing (tbl : list (list Z)) (str : list Z) (sz : Z) :
  sz <= 0 -> LCD_PrintString tbl str sz = Some (tt, []).
Proof.
  intros H. unfold LCD_PrintString, for_range, for_upto.
  replace (Z.to_nat (sz - 0)) with 0%nat by lia. reflexivity.
Qed.

Lemma LCD_PrintString_whole (tbl : list (list Z)) (str : list Z) :
  table_ok tbl = true ->
  forallb (in_range tbl) str = true ->
  LCD_PrintString tbl str (Z.of_nat (length str))
  = Some (tt, text_frames tbl str).
Proof.
  intros Hok Hr.
  assert (Hfirst : firstn (Z.to_nat (Z.of_nat (length str))) str = str)
    by (rewrite Nat2Z.id; apply firstn_all).
  rewrite LCD_PrintString_text; rewrite ?Hfirst;
    [reflexivity | assumption | lia | assumption].
Qed.

(** LCD_PrintString sends data bytes only, between 5 and 7 per character
    printed; with a size of zero or less it reads no character and sends
    nothing. *)
Theorem LCD_PrintString_data_only (tbl : list (list Z)) (str : list Z)
    (sz : Z) :
  table_ok tbl = true ->
  sz <= Z.of_nat (length str) ->
  forallb (in_range tbl) (firstn (Z.to_nat sz) str) = true ->
  exists frames,
    LCD_PrintString tbl str sz = Some (tt, frames) /\
    forallb is_data frames = true /\
    5 * Z.max 0 sz <= Z.of_nat (length frames) <= 7 * Z.max 0 sz /\
    (sz <= 0 -> frames = []).
Proof.
  intros Hok Hsz Hr. destruct (Z_le_gt_dec sz 0) as [Hneg|Hpos].
  - exists []. rewrite LCD_PrintString_nothing by exact Hneg.
    split; [reflexivity|]. split; [reflexivity|].
    split; [cbn [length]; lia|reflexivity].
  - exists (text_frames tbl (firstn (Z.to_nat sz) str)).
    rewrite LCD_PrintString_text by (assumption || lia).
    split; [reflexivity|]. split; [apply text_frames_data|].
    split; [|intros; exfalso; lia].
    rewrite text_frames_length by assumption.
    pose proof (rendered_width_bounds tbl (firstn (Z.to_nat sz) str)) as Hb.
    rewrite length_firstn in Hb. lia.
Qed.

Lemma LCD_PrintString_data_only_witness :
  exists frames,
    LCD_PrintString classic_font (literal "mm") 2 = Some (tt, frames) /\
    forallb is_data frames = true /\
    5 * Z.max 0 2 <= Z.of_nat (length frames) <= 7 * Z.max 0 2 /\
    (2 <= 0 -> frames = []).
Proof.
  apply (LCD_PrintString_data_only classic_font (literal "mm") 2).
  - reflexivity.
  - cbn. lia.
  - reflexivity.
Defined.

(** Printing a text made of two parts is printing the first part and then
    the second: the display receives the same frames. *)
Theorem LCD_PrintString_app (tbl : list (list Z)) (s1 s2 : list Z) :
  table_ok tbl = true ->
  forallb (in_range tbl) s1 = true ->
  forallb (in_range tbl) s2 = true ->
  LCD_PrintString tbl (s1 ++ s2) (Z.of_nat (length (s1 ++ s2)))
  = (LCD_PrintString tbl s1 (Z.of_nat (length s1)) ;;
     LCD_PrintString tbl s2 (Z.of_nat (length s2))).
Proof.
  intros Hok H1 H2.
  rewrite !LCD_PrintString_whole
    by (assumption || (rewrite forallb_app, H1, H2; reflexivity)).
  rewrite bind_some. unfold text_frames.
  rewrite map_app, concat_app. reflexivity.
Qed.

Lemma LCD_PrintString_app_witness :
  LCD_PrintString classic_font (chars "4500" ++ chars "mm") 6
  = (LCD_PrintString classic_font (chars "4500") 4 ;;
     LCD_PrintString classic_font (chars "mm") 2).
Proof.
  apply (LCD_PrintString_app classic_font (chars "4500") (chars "mm"));
    reflexivity.
Defined.

(** ** Centering: margins, and texts that do not fit *)

Lemma count_columns_text (tbl : list (list Z)) (str : list Z) (sz : Z) :
  table_ok tbl = true ->
  0 <= sz <= Z.of_nat (length str) ->
  forallb (in_range tbl) (firstn (Z.to_nat sz) str) = true ->
  rendered_width tbl (firstn (Z.to_nat sz) str) <= 255 ->
  LCD_PrintStringCentered tbl str sz
  = (LCD_SetX
       (to_uint8
          (Z.quot (84 - rendered_width tbl (firstn (Z.to_nat sz) str)) 2)) ;;
     LCD_PrintString tbl str sz).
Proof.
  intros Hok Hsz Hr Hw.
  set (text := firstn (Z.to_nat sz) str) in *.
  pose proof (rendered_width_bounds tbl text) as Hb.
  assert (Hlen : Z.of_nat (length text) = sz)
    by (unfold text; rewrite length_firstn; lia).
  unfold LCD_PrintStringCentered.
  change (fun (i numCol : Z) =>
            ch <- lift (load str i) ;;
            c <- lift (load tbl (ch - 32)) ;;
            c0 <- lift (load c 0) ;;
            c4 <- lift (load c 4) ;;
            ret (if c4 =? 0
                 then if c0 =? 0 then numCol else to_uint8 (numCol + 1)
                 else to_uint8
                        ((if c0 =? 0 then numCol else to_uint8 (numCol + 1))
                         + 1)))
    with (fun (i numCol : Z) =>
            ch <- lift (load str i) ;; count_edges tbl ch numCol).
  rewrite (for_range_load (count_edges tbl)) by exact Hsz. fold text.
  rewrite to_uint8_small by lia.
  rewrite count_columns by (assumption || lia).
  rewrite bind_ret_l.
  replace (sz * 5 + (rendered_width tbl text - 5 * Z.of_nat (length text)))
    with (rendered_width tbl text) by lia.
  reflexivity.
Qed.

(** A text of in-range characters that is too wide for the display is not
    positioned at all: from 86 columns on (and as long as the width fits the
    uint8_t counter) the start column comes out negative, wraps to a value
    above 83 and LCD_SetX ignores it, so the text is sent from wherever the
    cursor is.  At exactly 85 columns the division rounds toward zero and
    the text starts at column 0. *)
Theorem LCD_PrintStringCentered_too_wide (tbl : list (list Z))
    (str : list Z) :
  table_ok tbl = true ->
  forallb (in_range tbl) str = true ->
  84 < rendered_width tbl str <= 255 ->
  (rendered_width tbl str = 85 ->
   LCD_PrintStringCentered tbl str (Z.of_nat (length str))
   = Some (tt, Command 0x80 :: text_frames tbl str)) /\
  (86 <= rendered_width tbl str ->
   LCD_PrintStringCentered tbl str (Z.of_nat (length str))
   = Some (tt, text_frames tbl str)).
Proof.
  intros Hok Hr Hw.
  assert (Hfirst : firstn (Z.to_nat (Z.of_nat (length str))) str = str)
    by (rewrite Nat2Z.id; apply firstn_all).
  pose proof (count_columns_text tbl str (Z.of_nat (length str)) Hok
                ltac:(lia)) as Hc.
  rewrite Hfirst in Hc. specialize (Hc Hr ltac:(lia)).
  rewrite Hc, LCD_PrintString_whole by assumption.
  split; intros H.
  - rewrite H. reflexivity.
  - set (w := rendered_width tbl str) in *.
    assert (Hq : Z.quot (84 - w) 2 = - ((w - 84) / 2)).
    { replace (84 - w) with (- (w - 84)) by lia.
      rewrite Z.quot_opp_l by lia.
      rewrite Z.quot_div_nonneg by lia. reflexivity. }
    assert (Hd : 1 <= (w - 84) / 2 <= 85).
    { split; [apply Z.div_le_lower_bound; lia|].
      assert ((w - 84) / 2 < 86) by (apply Z.div_lt_upper_bound; lia).
      lia. }
    assert (Hm : to_uint8 (Z.quot (84 - w) 2) = 256 - (w - 84) / 2).
    { rewrite Hq. unfold to_uint8.
      replace (- ((w - 84) / 2)) with (256 - (w - 84) / 2 + (-1) * 256)
        by lia.
      rewrite Z_mod_plus_full. apply Z.mod_small. lia. }
    rewrite Hm, LCD_SetX_out_of_range by lia. reflexivity.
Qed.

Lemma LCD_PrintStringCentered_too_wide_witness :
  LCD_PrintStringCentered classic_font (chars "OUT OF RANGE ") 13
  = Some (tt, Command 0x80 :: text_frames classic_font (chars "OUT OF RANGE "))
  /\
  LCD_PrintStringCentered classic_font (chars "OUT OF RANGE!!") 14
  = Some (tt, text_frames classic_font (chars "OUT OF RANGE!!")).
Proof.
  split.
  - apply (LCD_PrintStringCentered_too_wide classic_font
             (chars "OUT OF RANGE ") eq_refl eq_refl).
    + vm_compute. split; [reflexivity | discriminate].
    + reflexivity.
  - apply (LCD_PrintStringCentered_too_wide classic_font
             (chars "OUT OF RANGE!!") eq_refl eq_refl).
    + vm_compute. split; [reflexivity | discriminate].
    + vm_compute. discriminate.
Defined.

(** A text that fits is centered: the blank margin to its right is as wide
    as the margin to its left, or one column wider. *)
Theorem LCD_PrintStringCentered_margins (tbl : list (list Z))
    (str : list Z) :
  table_ok tbl = true ->
  forallb (in_range tbl) str = true ->
  rendered_width tbl str <= 84 ->
  exists left glyphs,
    LCD_PrintStringCentered tbl str (Z.of_nat (length str))
    = Some (tt, Command (128 + left) :: glyphs) /\
    0 <= left <= 42 /\
    let right := 84 - (left + Z.of_nat (length glyphs)) in
    left <= right <= left + 1.
Proof.
  intros Hok Hr Hw.
  assert (Hfirst : firstn (Z.to_nat (Z.of_nat (length str))) str = str)
    by (rewrite Nat2Z.id; apply firstn_all).
  pose proof (rendered_width_bounds tbl str) as Hb.
  set (w := rendered_width tbl str) in *.
  assert (Hstart : 0 <= (84 - w) / 2 <= 42).
  { split; [apply Z.div_pos; lia|apply Z.div_le_upper_bound; lia]. }
  exists ((84 - w) / 2), (text_frames tbl str).
  split; [|split; [exact Hstart|]].
  - rewrite LCD_PrintStringCentered_layout; rewrite ?Hfirst;
      try assumption; [|lia].
    fold w. rewrite column_byte_sum by lia. reflexivity.
  - cbv zeta. rewrite text_frames_length by assumption. fold w.
    pose proof (Z.div_mod (84 - w) 2 ltac:(lia)) as Hdm.
    pose proof (Z.mod_pos_bound (84 - w) 2 ltac:(lia)) as Hmod.
    lia.
Qed.

Lemma LCD_PrintStringCentered_margins_witness :
  exists left glyphs,
    LCD_PrintStringCentered classic_font (chars "TEMPERATURE:") 12
    = Some (tt, Command (128 + left) :: glyphs) /\
    0 <= left <= 42 /\
    let right := 84 - (left + Z.of_nat (length glyphs)) in
    left <= right <= left + 1.
Proof.
  apply (LCD_PrintStringCentered_margins classic_font
           (chars "TEMPERATURE:") eq_refl eq_refl).
  vm_compute. discriminate.
Defined.

(** ** Copy loops *)

Lemma for_from_ext {S : Type} (f g : Z -> S -> M S) (n : nat) :
  (forall i s, f i s = g i s) ->
  forall i s, for_from n i f s = for_from n i g s.
Proof.
  intros E. induction n as [|n IH]; intros i s; [reflexivity|].
  cbn [for_from]. rewrite E. apply bind_ext. intros s'. apply IH.
Qed.

Lemma for_range_ext {S : Type} (f g : Z -> S -> M S) (n : Z) (s : S) :
  (forall i s, f i s = g i s) -> for_range n f s = for_range n g s.
Proof.
  intros E. unfold for_range, for_upto.
  rewrite (for_from_ext f g _ E). reflexivity.
Qed.

Lemma auto_array_length (n : nat) (stack : indeterminate) :
  length (auto_array n stack) = n.
Proof. unfold auto_array. rewrite length_map, length_seq. reflexivity. Qed.

Lemma foldM_put_next (us : list Z) :
  forall pre old rest,
    length old = length us ->
    foldM put_next us (pre ++ old ++ rest, Z.of_nat (length pre))
    = ret (pre ++ us ++ rest, Z.of_nat (length pre + length us)).
Proof.
  induction us as [|u us IH]; intros pre old rest Hlen.
  - destruct old; [|discriminate]. cbn [foldM app length].
    rewrite Nat.add_0_r. reflexivity.
  - destruct old as [|o old]; [discriminate|].
    cbn [length] in Hlen. injection Hlen as Hlen.
    cbn [foldM put_next app]. rewrite store_middle. cbn [lift].
    rewrite !bind_ret_l.
    specialize (IH (pre ++ [u]) old rest Hlen).
    rewrite <- !app_assoc in IH. cbn [app] in IH.
    rewrite length_app in IH. cbn [length] in IH.
    replace (Z.of_nat (length pre) + 1)
      with (Z.of_nat (length pre + 1)) by lia.
    rewrite IH. apply ret_congr. cbn [length]. f_equal. lia.
Qed.

(** Copying [n] characters of [src] to [dst[j]], [dst[j+1]], ... *)
Lemma put_next_loop (src dst : list Z) (n j : Z) :
  0 <= n <= Z.of_nat (length src) ->
  0 <= j ->
  j + n <= Z.of_nat (length dst) ->
  for_range n (fun i s => u <- lift (load src i) ;; put_next u s) (dst, j)
  = ret (firstn (Z.to_nat j) dst ++ firstn (Z.to_nat n) src
         ++ skipn (Z.to_nat (j + n)) dst, j + n).
Proof.
  intros Hn Hj Hcap.
  rewrite (for_range_load put_next) by exact Hn.
  pose proof (foldM_put_next (firstn (Z.to_nat n) src)
                (firstn (Z.to_nat j) dst)
                (firstn (Z.to_nat n) (skipn (Z.to_nat j) dst))
                (skipn (Z.to_nat n) (skipn (Z.to_nat j) dst))) as H.
  rewrite (firstn_skipn (Z.to_nat n)), (firstn_skipn (Z.to_nat j)) in H.
  rewrite !length_firstn, length_skipn in H.
  replace (Z.of_nat (Init.Nat.min (Z.to_nat j) (length dst))) with j in H
    by lia.
  rewrite H by lia.
  rewrite skipn_skipn. apply ret_congr.
  replace (Z.to_nat n + Z.to_nat j)%nat with (Z.to_nat (j + n)) by lia.
  f_equal. lia.
Qed.

Lemma append_units_copy (str : list Z) (sz : Z) (units : list Z)
    (units_sz : Z) :
  0 <= units_sz <= Z.of_nat (length units) ->
  0 <= sz ->
  sz + units_sz <= Z.of_nat (length str) ->
  append_units str sz units units_sz
  = ret (firstn (Z.to_nat sz) str ++ firstn (Z.to_nat units_sz) units
         ++ skipn (Z.to_nat (sz + units_sz)) str).
Proof.
  intros Hu Hsz Hcap. unfold append_units.
  rewrite (for_range_ext _
             (fun i s => u <- lift (load units i) ;; put_next u s))
    by (intros i [s j]; reflexivity).
  rewrite put_next_loop by assumption.
  rewrite bind_ret_l. reflexivity.
Qed.

(** [for (; i < n; i++) dst[i] = src[i];] from [i = 0]. *)
Lemma copy_loop (l : list Z) :
  forall pre old srest drest,
    length old = length l ->
    for_from (length l) (Z.of_nat (length pre))
      (fun i dst => t <- lift (load (pre ++ l ++ srest) i) ;;
                    lift (store dst i t))
      (pre ++ old ++ drest)
    = ret (Z.of_nat (length pre + length l), pre ++ l ++ drest).
Proof.
  induction l as [|a l IH]; intros pre old srest drest Hlen.
  - destruct old; [|discriminate]. cbn [for_from length app].
    rewrite Nat.add_0_r. reflexivity.
  - destruct old as [|o old]; [discriminate|].
    cbn [length] in Hlen. injection Hlen as Hlen.
    cbn [for_from app length]. rewrite load_middle. cbn [lift].
    rewrite bind_ret_l, store_middle. cbn [lift]. rewrite bind_ret_l.
    specialize (IH (pre ++ [a]) old srest drest Hlen).
    rewrite <- !app_assoc in IH. cbn [app] in IH.
    rewrite length_app in IH. cbn [length] in IH.
    replace (Z.of_nat (length pre) + 1)
      with (Z.of_nat (length pre + 1)) by lia.
    rewrite IH. apply ret_congr. cbn [length]. f_equal. lia.
Qed.

(** ** Readouts in general *)

Lemma text_width_length (tbl : list (list Z)) (text : list Z) :
  rendered_width tbl text <= 84 -> Z.of_nat (length text) <= 16.
Proof.
  intros H. pose proof (rendered_width_bounds tbl text). lia.
Qed.

(** A value up to 4500 is shown as its decimal digits directly followed by
    the first units_sz characters of the unit text, centered on row 2, which
    is cleared and addressed first. *)
Theorem LCD_PrintMeasurement_in_range (tbl : list (list Z))
    (stack : indeterminate) (dist : Z) (units : list Z) (units_sz : Z) :
  table_ok tbl = true ->
  0 <= dist <= 4500 ->
  0 <= units_sz <= Z.of_nat (length units) ->
  let text := decimal_text dist ++ firstn (Z.to_nat units_sz) units in
  forallb (in_range tbl) text = true ->
  rendered_width tbl text <= 84 ->
  LCD_PrintMeasurement tbl stack dist units units_sz
  = Some (tt, (Command 0x42 :: Command 0x80 :: repeat (Data 0x00) 84)
              ++ [Command 0x42] ++ centered_frames tbl text).
Proof.
  intros Hok Hd Hu text Hr Hw.
  destruct (row_cleared_and_addressed 2 ltac:(lia)) as [Hclear Haddr].
  destruct (uint16_digits_count dist ltac:(lia)) as [_ Hn].
  pose proof (decimal_text_length dist) as Hdl.
  pose proof (text_width_length tbl text Hw) as Htl.
  assert (Hul : length (firstn (Z.to_nat units_sz) units)
                = Z.to_nat units_sz) by (rewrite length_firstn; lia).
  unfold text in Htl. rewrite length_app, Hdl, Hul in Htl.
  unfold LCD_PrintMeasurement.
  rewrite Hclear, Haddr.
  destruct (Z.gtb_spec dist 4500) as [G|G]; [exfalso; lia|].
  rewrite uintToStr_decimal_text
    by (rewrite ?auto_array_length; lia).
  cbn [lift]. rewrite bind_ret_l.
  set (n := uint16_digits dist) in *.
  set (arr := auto_array 32 stack).
  assert (Harr : length arr = 32%nat) by apply auto_array_length.
  rewrite append_units_copy;
    [|lia|lia|rewrite length_app, length_skipn, Hdl; lia].
  rewrite bind_ret_l.
  rewrite Nat2Z.id, firstn_exact by exact Hdl.
  rewrite app_assoc. fold text.
  assert (Htext : length text = Z.to_nat (Z.of_nat n + units_sz)).
  { unfold text. rewrite length_app, Hdl, Hul. lia. }
  rewrite to_uint8_small by lia.
  rewrite LCD_PrintStringCentered_layout;
    rewrite ?firstn_exact by exact Htext; try assumption.
  - reflexivity.
  - rewrite length_app. lia.
Qed.

Lemma LCD_PrintMeasurement_in_range_witness :
  LCD_PrintMeasurement classic_font (fun _ => 0) 372 (literal "mm") 2
  = Some (tt, (Command 0x42 :: Command 0x80 :: repeat (Data 0x00) 84)
              ++ [Command 0x42]
              ++ centered_frames classic_font (chars "372mm")).
Proof.
  apply (LCD_PrintMeasurement_in_range classic_font (fun _ => 0) 372
           (literal "mm") 2 eq_refl).
  - lia.
  - cbn. lia.
  - reflexivity.
  - vm_compute. discriminate.
Defined.

(** The temperature line is replaced by OUT OF RANGE as soon as the first
    value is above 158, whatever the second value and the unit texts are;
    row 4 is cleared and addressed first. *)
Theorem LCD_PrintTempMeasurement_first_value_gate (tbl : list (list Z))
    (stack stack2 : indeterminate) (temp : Z) (units : list Z)
    (units_sz temp2 : Z) (units2 : list Z) (units_sz2 : Z) :
  table_ok tbl = true ->
  forallb (in_range tbl) (chars "OUT OF RANGE") = true ->
  158 < temp ->
  LCD_PrintTempMeasurement tbl stack stack2
    temp units units_sz temp2 units2 units_sz2
  = Some (tt, (Command 0x44 :: Command 0x80 :: repeat (Data 0x00) 84)
              ++ [Command 0x44]
              ++ centered_frames tbl (chars "OUT OF RANGE")).
Proof.
  intros Hok Hr Ht.
  destruct (row_cleared_and_addressed 4 ltac:(lia)) as [Hclear Haddr].
  destruct (LCD_PrintStringCentered_short tbl Hok
              (literal "OUT OF RANGE") (chars "OUT OF RANGE") 12
              ltac:(lia) ltac:(cbn; lia) eq_refl Hr) as [Hc _].
  unfold LCD_PrintTempMeasurement.
  destruct (Z.gtb_spec temp 158) as [G|G]; [|exfalso; lia].
  cbn [orb]. rewrite Hclear, Haddr, Hc. reflexivity.
Qed.

Lemma LCD_PrintTempMeasurement_first_value_gate_witness :
  LCD_PrintTempMeasurement classic_font (fun _ => 0) (fun _ => 0)
    159 (literal "C") 1 20 (literal "F") 1
  = Some (tt, (Command 0x44 :: Command 0x80 :: repeat (Data 0x00) 84)
              ++ [Command 0x44]
              ++ centered_frames classic_font (chars "OUT OF RANGE")).
Proof.
  apply (LCD_PrintTempMeasurement_first_value_gate classic_font
           (fun _ => 0) (fun _ => 0) 159 (literal "C") 1 20 (literal "F") 1
           eq_refl eq_refl).
  lia.
Defined.

Lemma repeat_split {A : Type} (a : A) (n k : nat) :
  (k <= n)%nat -> repeat a n = repeat a k ++ repeat a (n - k).
Proof.
  intros H. rewrite <- repeat_app. f_equal. lia.
Qed.

(** With a first value of at most 158 the temperature line is the first
    value and its unit, one space, and the second value and its unit,
    centered on row 4; the second value is taken as it is, up to 65535. *)
Theorem LCD_PrintTempMeasurement_composite (tbl : list (list Z))
    (stack stack2 : indeterminate) (temp : Z) (units : list Z)
    (units_sz temp2 : Z) (units2 : list Z) (units_sz2 : Z) :
  table_ok tbl = true ->
  0 <= temp <= 158 ->
  0 <= temp2 <= 65535 ->
  0 <= units_sz <= Z.of_nat (length units) ->
  0 <= units_sz2 <= Z.of_nat (length units2) ->
  let text :=
    (decimal_text temp ++ firstn (Z.to_nat units_sz) units) ++ [32]
    ++ (decimal_text temp2 ++ firstn (Z.to_nat units_sz2) units2) in
  forallb (in_range tbl) text = true ->
  rendered_width tbl text <= 84 ->
  LCD_PrintTempMeasurement tbl stack stack2
    temp units units_sz temp2 units2 units_sz2
  = Some (tt, (Command 0x44 :: Command 0x80 :: repeat (Data 0x00) 84)
              ++ [Command 0x44] ++ centered_frames tbl text).
Proof.
  intros Hok Ht Ht2 Hu Hu2 text Hr Hw.
  destruct (row_cleared_and_addressed 4 ltac:(lia)) as [Hclear Haddr].
  destruct (uint16_digits_count temp ltac:(lia)) as [_ Hn].
  destruct (uint16_digits_count temp2 ltac:(lia)) as [_ Hn2].
  pose proof (decimal_text_length temp) as Hdl.
  pose proof (decimal_text_length temp2) as Hdl2.
  pose proof (text_width_length tbl text Hw) as Htl.
  set (text1 := decimal_text temp ++ firstn (Z.to_nat units_sz) units) in *.
  set (text2 := decimal_text temp2 ++ firstn (Z.to_nat units_sz2) units2)
    in *.
  set (n := uint16_digits temp) in *.
  set (n2 := uint16_digits temp2) in *.
  assert (Hl1 : length text1 = Z.to_nat (Z.of_nat n + units_sz)).
  { unfold text1. rewrite length_app, Hdl, length_firstn. lia. }
  assert (Hl2 : length text2 = Z.to_nat (Z.of_nat n2 + units_sz2)).
  { unfold text2. rewrite length_app, Hdl2, length_firstn. lia. }
  unfold text in Htl. rewrite !length_app in Htl. cbn [length] in Htl.
  unfold LCD_PrintTempMeasurement.
  rewrite Hclear, Haddr.
  destruct (Z.gtb_spec temp 158) as [G|G]; [exfalso; lia|].
  destruct (Z.ltb_spec temp 0) as [L|L]; [exfalso; lia|].
  cbn [orb].
  rewrite !uintToStr_decimal_text by (rewrite ?auto_array_length; lia).
  fold n n2. cbn [lift]. rewrite !bind_ret_l.
  set (arr := auto_array 32 stack).
  set (arr2 := auto_array 32 stack2).
  assert (Harr : length arr = 32%nat) by apply auto_array_length.
  assert (Harr2 : length arr2 = 32%nat) by apply auto_array_length.
  rewrite append_units_copy;
    [|lia|lia|rewrite length_app, length_skipn, Hdl; lia].
  rewrite bind_ret_l.
  rewrite append_units_copy;
    [|lia|lia|rewrite length_app, length_skipn, Hdl2; lia].
  rewrite bind_ret_l.
  rewrite !Nat2Z.id, !firstn_exact by assumption.
  rewrite (app_assoc (decimal_text temp)), (app_assoc (decimal_text temp2)).
  fold text1 text2.
  set (tail1 := skipn (Z.to_nat (Z.of_nat n + units_sz))
                  (decimal_text temp ++ skipn n arr)).
  set (tail2 := skipn (Z.to_nat (Z.of_nat n2 + units_sz2))
                  (decimal_text temp2 ++ skipn n2 arr2)).
  (* first copy *)
  unfold for_upto. rewrite Z.sub_0_r, <- Hl1.
  rewrite (repeat_split 0 64 (length text1)) by lia.
  pose proof (copy_loop text1 [] (repeat 0 (length text1)) tail1
                (repeat 0 (64 - length text1))
                (repeat_length _ _)) as Hcopy.
  cbn [app length Nat.add] in Hcopy. change (Z.of_nat 0) with 0 in Hcopy.
  rewrite Hcopy, bind_ret_l. clear Hcopy.
  (* the separating space *)
  replace (64 - length text1)%nat with (S (63 - length text1)) by lia.
  cbn [repeat]. rewrite store_middle. cbn [lift]. rewrite bind_ret_l.
  (* second copy *)
  rewrite (for_range_ext _
             (fun j s => t <- lift (load (text2 ++ tail2) j) ;;
                         put_next t s))
    by (intros j [s i]; reflexivity).
  rewrite put_next_loop;
    [|rewrite length_app; lia|lia
     |rewrite length_app; cbn [length]; rewrite repeat_length; lia].
  rewrite bind_ret_l. cbn [fst snd].
  replace (Z.of_nat (length text1) + 1)
    with (Z.of_nat (length (text1 ++ [32])))
    by (rewrite length_app; cbn [length]; lia).
  rewrite Nat2Z.id.
  replace (text1 ++ 32 :: repeat 0 (63 - length text1))
    with ((text1 ++ [32]) ++ repeat 0 (63 - length text1))
    by (rewrite <- app_assoc; reflexivity).
  rewrite (firstn_exact (text1 ++ [32])) by reflexivity.
  rewrite (firstn_exact text2) by exact Hl2.
  (* the composite text *)
  assert (Hlen : length text
                 = Z.to_nat (Z.of_nat (length (text1 ++ [32]))
                             + (Z.of_nat n2 + units_sz2))).
  { unfold text. rewrite !length_app. cbn [length]. lia. }
  rewrite to_uint8_small by (rewrite length_app; cbn [length]; lia).
  replace ((text1 ++ [32]) ++ text2
           ++ skipn (Z.to_nat (Z.of_nat (length (text1 ++ [32]))
                               + (Z.of_nat n2 + units_sz2)))
                ((text1 ++ [32]) ++ repeat 0 (63 - length text1)))
    with (text ++ skipn (Z.to_nat (Z.of_nat (length (text1 ++ [32]))
                                    + (Z.of_nat n2 + units_sz2)))
                    ((text1 ++ [32]) ++ repeat 0 (63 - length text1)))
    by (unfold text; rewrite <- !app_assoc; reflexivity).
  rewrite LCD_PrintStringCentered_layout;
    rewrite ?firstn_exact by exact Hlen; try assumption.
  - reflexivity.
  - rewrite (length_app text), Hlen. lia.
Qed.

Lemma LCD_PrintTempMeasurement_composite_witness :
  LCD_PrintTempMeasurement classic_font (fun _ => 0) (fun _ => 0)
    21 (literal "C") 1 69 (literal "F") 1
  = Some (tt, (Command 0x44 :: Command 0x80 :: repeat (Data 0x00) 84)
              ++ [Command 0x44]
              ++ centered_frames classic_font (chars "21C 69F")).
Proof.
  apply (LCD_PrintTempMeasurement_composite classic_font
           (fun _ => 0) (fun _ => 0) 21 (literal "C") 1 69 (literal "F") 1
           eq_refl).
  - lia.
  - lia.
  - cbn. lia.
  - cbn. lia.
  - reflexivity.
  - vm_compute. discriminate.
Defined.

(** ** Whole screens *)

Lemma print_rows (tbl : list (list Z)) :
  table_ok tbl = true ->
  (length tbl <= 224)%nat ->
  forall rows pre,
    tbl = pre ++ rows ->
    for_from (length rows) (32 + Z.of_nat (length pre))
      (fun i _ => LCD_PrintCharacter tbl (to_char i)) tt
    = Some ((32 + Z.of_nat (length tbl), tt), concat (map glyph_frames rows)).
Proof.
  intros Hok Hn.
  induction rows as [|r rows IH]; intros pre Htbl.
  - rewrite Htbl, app_nil_r. reflexivity.
  - assert (Hlen : length tbl = (length pre + S (length rows))%nat)
      by (rewrite Htbl, length_app; reflexivity).
    cbn [for_from length map concat].
    unfold to_char at 1. rewrite to_uint8_small by lia.
    assert (Hin : in_range tbl (32 + Z.of_nat (length pre)) = true).
    { unfold in_range. rewrite !andb_true_iff.
      repeat split; (apply Z.leb_le || apply Z.ltb_lt); lia. }
    rewrite LCD_PrintCharacter_glyph by assumption.
    assert (Hrow : glyph_of tbl (32 + Z.of_nat (length pre)) = r).
    { unfold glyph_of.
      replace (Z.to_nat (32 + Z.of_nat (length pre) - 32))
        with (length pre) by lia.
      rewrite Htbl, app_nth2, Nat.sub_diag by lia. reflexivity. }
    rewrite Hrow, bind_some.
    specialize (IH (pre ++ [r])).
    rewrite length_app in IH. cbn [length] in IH.
    replace (32 + Z.of_nat (length pre) + 1)
      with (32 + Z.of_nat (length pre + 1)) by lia.
    rewrite IH by (rewrite <- app_assoc; exact Htbl).
    reflexivity.
Qed.

(** LCD_PrintAll prints every glyph of the table once, in table order,
    each with its spacer columns, as long as the table stops at character
    code 255 (at most 224 rows), the largest code a char can hold. *)
Theorem LCD_PrintAll_frames (tbl : list (list Z)) :
  table_ok tbl = true ->
  (length tbl <= 224)%nat ->
  LCD_PrintAll tbl = Some (tt, concat (map glyph_frames tbl)) /\
  5 * Z.of_nat (length tbl)
  <= Z.of_nat (length (concat (map glyph_frames tbl)))
  <= 7 * Z.of_nat (length tbl).
Proof.
  intros Hok Hn. split.
  - unfold LCD_PrintAll, for_upto.
    replace (Z.to_nat (32 + Z.of_nat (length tbl) - 32))
      with (length tbl) by lia.
    pose proof (print_rows tbl Hok Hn tbl [] eq_refl) as H.
    cbn [length] in H. change (32 + Z.of_nat 0) with 32 in H.
    rewrite H. cbn. rewrite app_nil_r. reflexivity.
  - unfold table_ok in Hok. rewrite forallb_forall in Hok.
    clear Hn. induction tbl as [|g tbl IH]; [cbn; lia|].
    cbn [map concat length]. rewrite length_app, Nat2Z.inj_add.
    assert (Hg : glyph_ok g = true) by (apply Hok; left; reflexivity).
    destruct (glyph_ok_columns g Hg) as (g0 & g1 & g2 & g3 & g4 & E & _).
    rewrite glyph_frames_length by (rewrite E; reflexivity).
    pose proof (edge_columns_bounds g).
    assert (IH' := IH (fun x Hx => Hok x (or_intror Hx))). lia.
Qed.

Lemma LCD_PrintAll_frames_witness :
  LCD_PrintAll classic_font
  = Some (tt, concat (map glyph_frames classic_font)) /\
  5 * 96 <= Z.of_nat (length (concat (map glyph_frames classic_font)))
  <= 7 * 96.
Proof.
  apply (LCD_PrintAll_frames classic_font eq_refl).
  cbn. lia.
Defined.

(** LCD_DistanceSetup blanks the display and writes the two labels
    DISTANCE: on row 1 and TEMPERATURE: on row 3, each centered; with any
    well-formed font both labels fit the 84 columns. *)
Theorem LCD_DistanceSetup_frames (tbl : list (list Z)) :
  table_ok tbl = true ->
  forallb (in_range tbl) (chars "DISTANCE:" ++ chars "TEMPERATURE:") = true ->
  LCD_DistanceSetup tbl
  = Some (tt, ([Command 0x80; Command 0x40] ++ repeat (Data 0x00) 504)
              ++ [Command 0x41] ++ centered_frames tbl (chars "DISTANCE:")
              ++ [Command 0x43]
              ++ centered_frames tbl (chars "TEMPERATURE:")) /\
  rendered_width tbl (chars "DISTANCE:") <= 63 /\
  rendered_width tbl (chars "TEMPERATURE:") <= 84.
Proof.
  intros Hok Hr. rewrite forallb_app in Hr.
  apply andb_true_iff in Hr. destruct Hr as [Hd Ht].
  destruct (LCD_PrintStringCentered_short tbl Hok
              (literal "DISTANCE:") (chars "DISTANCE:") 9
              ltac:(lia) ltac:(cbn; lia) eq_refl Hd) as [Hc1 _].
  destruct (LCD_PrintStringCentered_short tbl Hok
              (literal "TEMPERATURE:") (chars "TEMPERATURE:") 12
              ltac:(lia) ltac:(cbn; lia) eq_refl Ht) as [Hc2 _].
  assert (Hclear : LCD_ClearDisplay
                   = Some (tt, [Command 0x80; Command 0x40]
                               ++ repeat (Data 0x00) 504)).
  { unfold LCD_ClearDisplay.
    rewrite LCD_Reset_frames, bind_some, blank_columns. reflexivity. }
  split; [|split].
  - unfold LCD_DistanceSetup.
    rewrite Hclear, Hc1, Hc2.
    rewrite !LCD_SetY_in_range by lia. reflexivity.
  - pose proof (rendered_width_bounds tbl (chars "DISTANCE:")) as H.
    change (Z.of_nat (length (chars "DISTANCE:"))) with 9 in H. lia.
  - pose proof (rendered_width_bounds tbl (chars "TEMPERATURE:")) as H.
    change (Z.of_nat (length (chars "TEMPERATURE:"))) with 12 in H. lia.
Qed.

Lemma LCD_DistanceSetup_frames_witness :
  LCD_DistanceSetup classic_font
  = Some (tt, ([Command 0x80; Command 0x40] ++ repeat (Data 0x00) 504)
              ++ [Command 0x41]
              ++ centered_frames classic_font (chars "DISTANCE:")
              ++ [Command 0x43]
              ++ centered_frames classic_font (chars "TEMPERATURE:")).
Proof.
  apply (LCD_DistanceSetup_frames classic_font eq_refl eq_refl).
Defined.

(** ** Pin configuration *)

Lemma shl32_one (n : Z) : 0 <= n < 31 -> shl32 1 n = Some (2 ^ n).
Proof.
  intros H. unfold shl32. rewrite Z.shiftl_1_l.
  assert (2 ^ n < 2 ^ 31) by (apply Z.pow_lt_mono_r; lia).
  destruct (Z.ltb_spec n 0); [exfalso; lia|].
  destruct (Z.leb_spec 32 n); [exfalso; lia|].
  destruct (Z.leb_spec (2 ^ 31) (2 ^ n)); [exfalso; lia|].
  reflexivity.
Qed.

Lemma shl32_undefined (a n : Z) : 32 <= n -> shl32 a n = None.
Proof.
  intros H. unfold shl32.
  destruct (Z.leb_spec 32 n); [|exfalso; lia].
  rewrite orb_true_r. reflexivity.
Qed.

Lemma shl32_sign_bit : shl32 1 31 = None.
Proof. reflexivity. Qed.

Lemma shl32_nibble_overflow : shl32 0xF 28 = None.
Proof. reflexivity. Qed.

Lemma testbit_not32 (a k : Z) :
  0 <= k < 32 -> Z.testbit (not32 a) k = negb (Z.testbit a k).
Proof.
  intros H. unfold not32, to_uint32.
  rewrite Z.mod_pow2_bits_low by lia. apply Z.lnot_spec. lia.
Qed.

Lemma shl32_nibble (n : Z) :
  0 <= n <= 27 ->
  exists f,
    shl32 0xF n = Some f /\
    forall k, 0 <= k < 32 ->
      Z.testbit f k = (n <=? k) && (k <? n + 4).
Proof.
  intros H. unfold shl32.
  assert (Hfit : Z.shiftl 0xF n < 2 ^ 31).
  { rewrite Z.shiftl_mul_pow2 by lia.
    assert (2 ^ n <= 2 ^ 27) by (apply Z.pow_le_mono_r; lia).
    change (2 ^ 27) with 134217728 in *.
    change (2 ^ 31) with 2147483648. lia. }
  destruct (Z.ltb_spec n 0); [exfalso; lia|].
  destruct (Z.leb_spec 32 n); [exfalso; lia|].
  destruct (Z.leb_spec (2 ^ 31) (Z.shiftl 0xF n)); [exfalso; lia|].
  cbn [orb].
  eexists. split; [reflexivity|]. intros k Hk.
  rewrite Z.shiftl_spec by lia.
  change 0xF with (Z.ones 4). rewrite Z.testbit_ones by lia.
  destruct (Z.leb_spec 0 (k - n)); destruct (Z.leb_spec n k);
    destruct (Z.ltb_spec (k - n) 4); destruct (Z.ltb_spec k (n + 4));
    try reflexivity; exfalso; lia.
Qed.

Ltac bit_cases :=
  repeat match goal with
         | |- context [Z.eqb ?a ?b] => destruct (Z.eqb_spec a b)
         | |- context [Z.leb ?a ?b] => destruct (Z.leb_spec a b)
         | |- context [Z.ltb ?a ?b] => destruct (Z.ltb_spec a b)
         end;
  try (exfalso; lia);
  repeat match goal with
         | |- context [Z.testbit ?r ?k] => destruct (Z.testbit r k)
         end;
  reflexivity.

(** configGPIOB_output makes pin PB0..PB14 a push-pull output without
    pull resistors at low speed: in MODER the pin's field becomes 01, in
    OTYPER its bit is cleared, in OSPEEDR and PUPDR its field becomes 00,
    and no bit belonging to another pin changes, nor does AFR.  For pin 15
    the code evaluates 1 << 31, which does not fit an int, and for a pin
    number above 15 it shifts by 32 or more: both are undefined. *)
Theorem configGPIOB_output_bits (pin : Z) (GPIOB : GPIO_TypeDef) :
  0 <= pin <= 255 ->
  (15 <= pin -> configGPIOB_output pin GPIOB = None) /\
  (pin <= 14 ->
   exists GPIOB',
     configGPIOB_output pin GPIOB = Some GPIOB' /\
     AFR0 GPIOB' = AFR0 GPIOB /\ AFR1 GPIOB' = AFR1 GPIOB /\
     forall k, 0 <= k < 32 ->
       Z.testbit (MODER GPIOB') k
       = (if k =? 2 * pin then true
          else if k =? 2 * pin + 1 then false
          else Z.testbit (MODER GPIOB) k) /\
       Z.testbit (OTYPER GPIOB') k
       = (if k =? pin then false else Z.testbit (OTYPER GPIOB) k) /\
       Z.testbit (OSPEEDR GPIOB') k
       = (if (k =? 2 * pin) || (k =? 2 * pin + 1) then false
          else Z.testbit (OSPEEDR GPIOB) k) /\
       Z.testbit (PUPDR GPIOB') k
       = (if (k =? 2 * pin) || (k =? 2 * pin + 1) then false
          else Z.testbit (PUPDR GPIOB) k)).
Proof.
  intros Hp.
  assert (Hs : to_uint32 (2 * pin) = 2 * pin)
    by (apply Z.mod_small; lia).
  assert (Hs1 : to_uint32 (2 * pin + 1) = 2 * pin + 1)
    by (apply Z.mod_small; lia).
  split; intros H; unfold configGPIOB_output; rewrite Hs, Hs1.
  - destruct (Z.eq_dec pin 15) as [E|E].
    + rewrite E. reflexivity.
    + rewrite (shl32_undefined 1 (2 * pin)) by lia. reflexivity.
  - rewrite !(shl32_one (2 * pin)), !(shl32_one (2 * pin + 1)),
      (shl32_one pin) by lia.
    eexists. split; [reflexivity|]. cbn [AFR0 AFR1 MODER OTYPER OSPEEDR PUPDR].
    split; [reflexivity|]. split; [reflexivity|].
    intros k Hk.
    rewrite !Z.land_spec, !testbit_not32, !Z.lor_spec,
      !Z.pow2_bits_eqb by lia.
    repeat split; bit_cases.
Qed.

Lemma configGPIOB_output_bits_witness :
  configGPIOB_output 15
    {| MODER := 0xffffffff; OTYPER := 0xffff; OSPEEDR := 0xffffffff;
       PUPDR := 0xffffffff; AFR0 := 7; AFR1 := 9 |} = None /\
  exists GPIOB',
    configGPIOB_output 14
      {| MODER := 0xffffffff; OTYPER := 0xffff; OSPEEDR := 0xffffffff;
         PUPDR := 0xffffffff; AFR0 := 7; AFR1 := 9 |} = Some GPIOB' /\
    Z.testbit (MODER GPIOB') 28 = true /\
    Z.testbit (MODER GPIOB') 29 = false /\
    Z.testbit (MODER GPIOB') 27 = true /\
    Z.testbit (OTYPER GPIOB') 14 = false /\
    Z.testbit (OSPEEDR GPIOB') 29 = false /\
    Z.testbit (PUPDR GPIOB') 28 = false.
Proof.
  split.
  - apply (configGPIOB_output_bits 15); lia.
  - destruct (configGPIOB_output_bits 14
                {| MODER := 0xffffffff; OTYPER := 0xffff;
                   OSPEEDR := 0xffffffff; PUPDR := 0xffffffff;
                   AFR0 := 7; AFR1 := 9 |} ltac:(lia)) as [_ H].
    destruct (H ltac:(lia)) as (g & Hg & _ & _ & Hbits).
    exists g. split; [exact Hg|].
    destruct (Hbits 28 ltac:(lia)) as (M28 & _ & _ & P28).
    destruct (Hbits 29 ltac:(lia)) as (M29 & _ & S29 & _).
    destruct (Hbits 27 ltac:(lia)) as (M27 & _ & _ & _).
    destruct (Hbits 14 ltac:(lia)) as (_ & O14 & _ & _).
    repeat split; assumption.
Defined.

(** configPinB_AF0 puts pin PB0..PB6 or PB8..PB14 in alternate-function
    mode with function 0: in MODER the pin's field becomes 10, in OTYPER its
    bit is cleared, in PUPDR its field becomes 00, its 4-bit field in AFR[0]
    (pins 0 to 6) or AFR[1] (pins 8 to 14) becomes 0, and both bits of its
    field in OSPEEDR are set; no bit belonging to another pin changes.  For
    pin 7 the code evaluates 0xF << 28 and for pin 15 it evaluates 1 << 31,
    neither of which fits an int, and for a pin number above 15 it shifts by
    32 or more: all of these are undefined. *)
Theorem configPinB_AF0_bits (x : Z) (GPIOB : GPIO_TypeDef) :
  0 <= x <= 255 ->
  (x = 7 \/ 15 <= x -> configPinB_AF0 x GPIOB = None) /\
  (x <= 14 -> x <> 7 ->
   exists GPIOB',
     configPinB_AF0 x GPIOB = Some GPIOB' /\
     (x < 8 -> AFR1 GPIOB' = AFR1 GPIOB) /\
     (8 <= x -> AFR0 GPIOB' = AFR0 GPIOB) /\
     forall k, 0 <= k < 32 ->
       Z.testbit (MODER GPIOB') k
       = (if k =? 2 * x then false
          else if k =? 2 * x + 1 then true
          else Z.testbit (MODER GPIOB) k) /\
       Z.testbit (OTYPER GPIOB') k
       = (if k =? x then false else Z.testbit (OTYPER GPIOB) k) /\
       Z.testbit (OSPEEDR GPIOB') k
       = (if (k =? 2 * x) || (k =? 2 * x + 1) then true
          else Z.testbit (OSPEEDR GPIOB) k) /\
       Z.testbit (PUPDR GPIOB') k
       = (if (k =? 2 * x) || (k =? 2 * x + 1) then false
          else Z.testbit (PUPDR GPIOB) k) /\
       (x < 8 ->
        Z.testbit (AFR0 GPIOB') k
        = (if (4 * x <=? k) && (k <? 4 * x + 4) then false
           else Z.testbit (AFR0 GPIOB) k)) /\
       (8 <= x ->
        Z.testbit (AFR1 GPIOB') k
        = (if (4 * (x - 8) <=? k) && (k <? 4 * (x - 8) + 4) then false
           else Z.testbit (AFR1 GPIOB) k))).
Proof.
  intros Hx. split.
  - intros [E|H]; unfold configPinB_AF0.
    + rewrite E. reflexivity.
    + destruct (Z.eq_dec x 15) as [E|E].
      * rewrite E. reflexivity.
      * rewrite (shl32_undefined 1 (2 * x)) by lia. reflexivity.
  - intros H H7. unfold configPinB_AF0.
    rewrite !(shl32_one (2 * x)), !(shl32_one (2 * x + 1)),
      (shl32_one x) by lia.
    destruct (Z.ltb_spec x 8) as [L|L].
    + destruct (shl32_nibble (4 * x) ltac:(lia)) as (f & Hf & Hbits).
      rewrite Hf. eexists. split; [reflexivity|].
      cbn [AFR0 AFR1 MODER OTYPER OSPEEDR PUPDR].
      split; [reflexivity|]. split; [intros; exfalso; lia|].
      intros k Hk.
      rewrite !Z.land_spec, !Z.lor_spec, !Z.land_spec, !testbit_not32,
        !Z.lor_spec, !Z.pow2_bits_eqb, Hbits by lia.
      repeat split; try (intros; exfalso; lia); try intros _; bit_cases.
    + destruct (shl32_nibble (4 * (x - 8)) ltac:(lia)) as (f & Hf & Hbits).
      rewrite Hf. eexists. split; [reflexivity|].
      cbn [AFR0 AFR1 MODER OTYPER OSPEEDR PUPDR].
      split; [intros; exfalso; lia|]. split; [reflexivity|].
      intros k Hk.
      rewrite !Z.land_spec, !Z.lor_spec, !Z.land_spec, !testbit_not32,
        !Z.lor_spec, !Z.pow2_bits_eqb, Hbits by lia.
      repeat split; try (intros; exfalso; lia); try intros _; bit_cases.
Qed.

Lemma configPinB_AF0_bits_witness :
  configPinB_AF0 7
    {| MODER := 0; OTYPER := 0xffff; OSPEEDR := 0;
       PUPDR := 0xffffffff; AFR0 := 0x12345678; AFR1 := 0xffffffff |}
  = None /\
  exists GPIOB',
    configPinB_AF0 13
      {| MODER := 0; OTYPER := 0xffff; OSPEEDR := 0;
         PUPDR := 0xffffffff; AFR0 := 0x12345678; AFR1 := 0xffffffff |}
    = Some GPIOB' /\
    AFR0 GPIOB' = 0x12345678 /\
    Z.testbit (MODER GPIOB') 27 = true /\
    Z.testbit (MODER GPIOB') 26 = false /\
    Z.testbit (OSPEEDR GPIOB') 26 = true /\
    Z.testbit (AFR1 GPIOB') 20 = false /\
    Z.testbit (AFR1 GPIOB') 24 = true.
Proof.
  split.
  - apply (configPinB_AF0_bits 7); [lia | left; reflexivity].
  - destruct (configPinB_AF0_bits 13
                {| MODER := 0; OTYPER := 0xffff; OSPEEDR := 0;
                   PUPDR := 0xffffffff; AFR0 := 0x12345678;
                   AFR1 := 0xffffffff |} ltac:(lia)) as [_ H].
    destruct (H ltac:(lia) ltac:(lia)) as (g & Hg & _ & Ha & Hbits).
    exists g. split; [exact Hg|]. split; [apply Ha; lia|].
    destruct (Hbits 27 ltac:(lia)) as (M27 & _).
    destruct (Hbits 26 ltac:(lia)) as (M26 & _ & S26 & _).
    destruct (Hbits 20 ltac:(lia)) as (_ & _ & _ & _ & _ & A20).
    destruct (Hbits 24 ltac:(lia)) as (_ & _ & _ & _ & _ & A24).
    split; [exact M27|]. split; [exact M26|]. split; [exact S26|].
    split; [apply A20; lia | apply A24; lia].
Defined.

(** ** What is read and what is written *)

(** LCD_PrintStringCentered reads the first sz characters of its text and
    nothing behind them: whatever follows in the array (a terminating zero,
    the unused rest of a buffer) has no influence, for any glyph table. *)
Theorem LCD_PrintStringCentered_reads_prefix (tbl : list (list Z))
    (str : list Z) (sz : Z) :
  0 <= sz <= Z.of_nat (length str) ->
  forall rest,
    LCD_PrintStringCentered tbl (firstn (Z.to_nat sz) str ++ rest) sz
    = LCD_PrintStringCentered tbl str sz.
Proof.
  intros Hsz rest.
  assert (Hlen : length (firstn (Z.to_nat sz) str) = Z.to_nat sz)
    by (rewrite length_firstn; lia).
  assert (Hsz' : 0 <= sz
                 <= Z.of_nat (length (firstn (Z.to_nat sz) str ++ rest)))
    by (rewrite length_app; lia).
  assert (Hbody : forall s : list Z,
    (fun (i numCol : Z) =>
       ch <- lift (load s i) ;;
       c <- lift (load tbl (ch - 32)) ;;
       c0 <- lift (load c 0) ;;
       let numCol := if c0 =? 0 then numCol else to_uint8 (numCol + 1) in
       c4 <- lift (load c 4) ;;
       let numCol := if c4 =? 0 then numCol else to_uint8 (numCol + 1) in
       ret numCol)
    = (fun (i numCol : Z) =>
         ch <- lift (load s i) ;; count_edges tbl ch numCol))
    by reflexivity.
  unfold LCD_PrintStringCentered, LCD_PrintString.
  rewrite !Hbody.
  rewrite !(for_range_load (count_edges tbl)) by assumption.
  rewrite !(for_range_load (fun ch _ => LCD_PrintCharacter tbl ch))
    by assumption.
  rewrite firstn_exact by exact Hlen. reflexivity.
Qed.

Lemma LCD_PrintStringCentered_reads_prefix_witness :
  LCD_PrintStringCentered classic_font (chars "OUT OF RANGE" ++ [0]) 12
  = LCD_PrintStringCentered classic_font (chars "OUT OF RANGE??") 12.
Proof.
  apply (LCD_PrintStringCentered_reads_prefix classic_font
           (chars "OUT OF RANGE??") 12).
  cbn. lia.
Defined.

Lemma foldM_put_next_overflow (us : list Z) :
  forall pre rest,
    (length rest < length us)%nat ->
    foldM put_next us (pre ++ rest, Z.of_nat (length pre)) = None.
Proof.
  induction us as [|u us IH]; intros pre rest Hlen;
    [cbn [length] in Hlen; exfalso; lia|].
  cbn [foldM put_next]. destruct rest as [|r rest].
  - rewrite app_nil_r. unfold store.
    destruct (Z.leb_spec (Z.of_nat (length pre)) (Z.of_nat (length pre)));
      [|exfalso; lia].
    rewrite orb_true_r. reflexivity.
  - rewrite store_middle. cbn [lift]. rewrite !bind_ret_l.
    specialize (IH (pre ++ [u]) rest).
    rewrite <- app_assoc, length_app in IH. cbn [app length] in IH.
    replace (Z.of_nat (length pre) + 1)
      with (Z.of_nat (length pre + 1)) by lia.
    apply IH. cbn [length] in Hlen. lia.
Qed.

(** There is no overflow check on the unit text: when the digits of the
    value and units_sz unit characters do not fit the 32 characters of
    distStr, LCD_PrintMeasurement writes behind the end of the array, which
    is undefined behaviour. *)
Theorem LCD_PrintMeasurement_overflow (tbl : list (list Z))
    (stack : indeterminate) (dist : Z) (units : list Z) (units_sz : Z) :
  0 <= dist <= 4500 ->
  0 <= units_sz <= Z.of_nat (length units) ->
  32 < Z.of_nat (uint16_digits dist) + units_sz ->
  LCD_PrintMeasurement tbl stack dist units units_sz = None.
Proof.
  intros Hd Hu Hover.
  destruct (row_cleared_and_addressed 2 ltac:(lia)) as [Hclear Haddr].
  destruct (uint16_digits_count dist ltac:(lia)) as [_ Hn].
  pose proof (decimal_text_length dist) as Hdl.
  unfold LCD_PrintMeasurement.
  rewrite Hclear, Haddr.
  destruct (Z.gtb_spec dist 4500) as [G|G]; [exfalso; lia|].
  rewrite uintToStr_decimal_text by (rewrite ?auto_array_length; lia).
  cbn [lift]. rewrite bind_ret_l.
  unfold append_units.
  rewrite (for_range_ext _
             (fun i s => u <- lift (load units i) ;; put_next u s))
    by (intros i [s j]; reflexivity).
  rewrite (for_range_load put_next) by exact Hu.
  rewrite <- Hdl.
  rewrite foldM_put_next_overflow; [reflexivity|].
  rewrite length_skipn, auto_array_length, length_firstn. lia.
Qed.

Lemma LCD_PrintMeasurement_overflow_witness :
  LCD_PrintMeasurement classic_font (fun _ => 0) 4500
    (repeat 109 40) 29 = None.
Proof.
  apply (LCD_PrintMeasurement_overflow classic_font (fun _ => 0) 4500
           (repeat 109 40) 29).
  - lia.
  - cbn [length repeat]. lia.
  - cbn. lia.
Defined.
